(** * libbitcoin: the per-connection channel (network/channel.cpp, channel.hpp)

    A shallow embedding of [channel_pimpl]: its completion handlers, the
    inactivity timer, the teardown request to the owning gateway, the
    dispatch of decoded messages to the kernel, the identity counter and the
    handshake (version) message.

    Every member function runs in a small monad of our own: it threads the
    object and the process-wide state, collects the effects the function
    issues on its collaborators (in the order it issues them), and can stop
    on a failed [BITCOIN_ASSERT]. *)

Set Warnings "-stdlib-vector".
From Stdlib Require Import ZArith NArith List String Bool Lia DecimalString.
From Stdlib Require Vector.
From Stdlib.Strings Require Import Byte.
Import ListNotations.

Set Implicit Arguments.

Local Open Scope string_scope.
Local Open Scope N_scope.
Local Open Scope list_scope.

(** ** Data *)

(** [data_chunk] is [std::vector<uint8_t>]. *)
Definition data_chunk := list byte.

(** [boost::array<uint8_t, n>]: the size is part of the type. *)
Definition byte_array (n : nat) := Vector.t byte n.

(** [data_chunk(a.begin(), a.end())] *)
Definition chunk_of_array {n} (a : byte_array n) : data_chunk := Vector.to_list a.

(** [std::vector::resize]: keeps the first [n] bytes, pads with zero bytes. *)
Definition resize (n : N) (v : data_chunk) : data_chunk :=
  firstn (N.to_nat n) v ++ repeat x00 (N.to_nat n - List.length v).

(** [boost::asio::buffer(v, max_size)]: a view of [v], at most [max_size] bytes
    long; what matters to [async_read] is its size. *)
Definition buffer_size (v : data_chunk) (max_size : N) : N :=
  N.min (N.of_nat (List.length v)) max_size.

(** [boost::system::error_code], as far as the channel looks at it: it is
    compared with [boost::asio::error::operation_aborted] and tested for
    being set. *)
Inductive error_code :=
| no_error
| operation_aborted
| io_failure (value : positive).

Definition error_code_eqb (a b : error_code) : bool :=
  match a, b with
  | no_error, no_error => true
  | operation_aborted, operation_aborted => true
  | io_failure x, io_failure y => Pos.eqb x y
  | _, _ => false
  end.

(** [if (ec)] *)
Definition is_set (ec : error_code) : bool :=
  match ec with no_error => false | _ => true end.

(** [channel_handle] is an unsigned integer type declared outside these
    sources; its width is a parameter of the development. Incrementing
    wraps around. *)
Definition channel_handle := Z.

Definition handle_incr (bits : N) (h : channel_handle) : channel_handle :=
  ((h + 1) mod 2 ^ Z.of_N bits)%Z.

(** 16-octet IP address. *)
Definition ip_address := list byte.

(** Modelled from the spec: [message::header] of bitcoin/messages.hpp, which
    is not part of these sources (command tag, declared payload length,
    optional checksum value, after the network magic). *)
Record header := mk_header {
  magic : N;
  command : string;
  payload_length : N;
  checksum : N
}.

Definition set_checksum (h : header) (c : N) : header :=
  {| magic := magic h; command := command h;
     payload_length := payload_length h; checksum := c |}.

(** Modelled from the spec: [message::net_addr] and [message::version] of
    bitcoin/messages.hpp (services, 16-byte IP, port; protocol version,
    services bitmask, timestamp, two network addresses, nonce, sub-version
    string, start height). *)
Record net_addr := mk_net_addr {
  na_services : Z;
  ip_addr : ip_address;
  port : Z
}.

Record version := mk_version {
  v_version : Z;
  services : Z;
  timestamp : Z;
  addr_me : net_addr;
  addr_you : net_addr;
  nonce : Z;
  sub_version_num : string;
  start_height : Z
}.

(** [boost::posix_time]: durations and clock readings in seconds. *)
Definition time_duration := Z.
Definition seconds (n : Z) : time_duration := n.
Definition minutes (n : Z) : time_duration := (60 * n)%Z.

(** Connection timeout time *)
Definition disconnect_timeout : time_duration := (seconds 0 + minutes 90)%Z.

(** Header minus checksum is 4 + 12 + 4 = 20 bytes *)
Definition header_chunk_size : nat := 20.
(** Checksum size is 4 bytes *)
Definition header_checksum_size : nat := 4.

(** [boost::asio::deadline_timer]: its expiry time and whether a wait is
    outstanding on it. *)
Record deadline_timer := mk_timer {
  expires_at : Z;
  waiting : bool
}.

Inductive log_level := debug | info | warning.

Section Channel.

(** Message bodies declared in bitcoin/messages.hpp. *)
Context {addr inv block getdata getblocks : Type}.

(** State of the kernel, the sink behind [network::kernel()]. *)
Context {kernel : Type}.

(** Width of [channel_handle]. *)
Variable handle_bits : N.

(** What the kernel can be handed: the overloads of [recv_message]. *)
Inductive message :=
| msg_version (payload : version)
| msg_verack
| msg_addr (payload : addr)
| msg_inv (payload : inv)
| msg_block (payload : block).

(** What a channel can send: the overloads of [channel_pimpl::send]. *)
Inductive packet :=
| pkt_version (p : version)
| pkt_verack
| pkt_getaddr
| pkt_getdata (p : getdata)
| pkt_getblocks (p : getblocks).

(** Modelled from the spec: the [dialect] interface of bitcoin/dialect.hpp
    (parse and validate a header, say whether a checksum follows, parse
    and verify the checksum, decode each body with a failure flag, encode).
    The [*_from_network] members take [ret_errc] by reference; the channel
    always passes it in as [false], so the flag is a second result. *)
Record dialect := {
  header_from_network : data_chunk -> header;
  verify_header : header -> bool;
  checksum_used : header -> bool;
  checksum_from_network : data_chunk -> N;
  verify_checksum : header -> data_chunk -> bool;
  version_from_network : header -> data_chunk -> version * bool;
  addr_from_network : header -> data_chunk -> addr * bool;
  inv_from_network : header -> data_chunk -> inv * bool;
  block_from_network : header -> data_chunk -> block * bool;
  to_network : packet -> data_chunk
}.

(** Modelled from the spec: the gateway ([network], bitcoin/network/network.hpp):
    the node's local address and the kernel's accept/reject answer.
    [disconnect] is recorded as an effect, see [event]. *)
Record network := {
  get_ip_address : ip_address;
  recv_message : kernel -> channel_handle -> message -> bool * kernel
}.

(** The handler bound to an asynchronous read. *)
Inductive callback :=
| cb_handle_read_header
| cb_handle_read_checksum (header_msg : header)
| cb_handle_read_payload (header_msg : header).

(** Effects a channel issues on its collaborators. *)
Inductive event :=
| ev_log (level : log_level) (text : string)
| ev_async_read (nbytes : N) (cb : callback)
| ev_async_write (bytes : data_chunk)
| ev_timer_cancel
| ev_timer_expires_from_now (d : time_duration)
| ev_timer_async_wait
| ev_disconnect (id : channel_handle)
| ev_recv_message (id : channel_handle) (m : message).

Record init_data := {
  parent_gateway : network;
  translator : dialect;
  socket : nat
}.

Record channel_pimpl := mk_channel {
  channel_id_ : channel_handle;
  socket_ : nat;
  network_ : network;
  translator_ : dialect;
  inbound_header_ : byte_array header_chunk_size;
  inbound_checksum_ : byte_array header_checksum_size;
  inbound_payload_ : data_chunk;
  timeout_ : deadline_timer
}.

(** The object a member function runs on, with the process-wide state it
    can reach: the static counter, the kernel, the clock. *)
Record state := mk_state {
  this : channel_pimpl;
  chan_id_counter : channel_handle;
  the_kernel : kernel;
  clock : Z
}.

Definition with_this (f : channel_pimpl -> channel_pimpl) (s : state) : state :=
  {| this := f (this s); chan_id_counter := chan_id_counter s;
     the_kernel := the_kernel s; clock := clock s |}.

Definition with_kernel (k : kernel) (s : state) : state :=
  {| this := this s; chan_id_counter := chan_id_counter s;
     the_kernel := k; clock := clock s |}.

Definition with_counter (c : channel_handle) (s : state) : state :=
  {| this := this s; chan_id_counter := c;
     the_kernel := the_kernel s; clock := clock s |}.

Definition set_channel_id (id : channel_handle) (c : channel_pimpl) :=
  {| channel_id_ := id; socket_ := socket_ c; network_ := network_ c;
     translator_ := translator_ c; inbound_header_ := inbound_header_ c;
     inbound_checksum_ := inbound_checksum_ c;
     inbound_payload_ := inbound_payload_ c; timeout_ := timeout_ c |}.

Definition set_payload (p : data_chunk) (c : channel_pimpl) :=
  {| channel_id_ := channel_id_ c; socket_ := socket_ c; network_ := network_ c;
     translator_ := translator_ c; inbound_header_ := inbound_header_ c;
     inbound_checksum_ := inbound_checksum_ c;
     inbound_payload_ := p; timeout_ := timeout_ c |}.

Definition set_timeout (t : deadline_timer) (c : channel_pimpl) :=
  {| channel_id_ := channel_id_ c; socket_ := socket_ c; network_ := network_ c;
     translator_ := translator_ c; inbound_header_ := inbound_header_ c;
     inbound_checksum_ := inbound_checksum_ c;
     inbound_payload_ := inbound_payload_ c; timeout_ := t |}.

(** ** The monad *)

(** A run either returns a value, the new state and the effects issued, or
    stops on a failed assertion. *)
Inductive outcome (A : Type) :=
| Returned (a : A) (s : state) (effects : list event)
| AssertionFailed.
Arguments AssertionFailed {A}.

Definition M (A : Type) := state -> outcome A.

Definition ret {A} (a : A) : M A := fun s => Returned a s [].

Definition bind {A B} (m : M A) (f : A -> M B) : M B :=
  fun s =>
    match m s with
    | Returned a s1 e1 =>
        match f a s1 with
        | Returned b s2 e2 => Returned b s2 (e1 ++ e2)
        | AssertionFailed => AssertionFailed
        end
    | AssertionFailed => AssertionFailed
    end.

Definition gets {A} (f : state -> A) : M A := fun s => Returned (f s) s [].
Definition modify (f : state -> state) : M unit := fun s => Returned tt (f s) [].
Definition emit (e : event) : M unit := fun s => Returned tt s [e].

Notation "x <- m ;; k" := (bind m (fun x => k))
  (at level 61, m at next level, right associativity).
Notation "m ;;; k" := (bind m (fun _ => k))
  (at level 61, right associativity).

(** Modelled from the spec: [BITCOIN_ASSERT] of bitcoin/util/assert.hpp
    (a completed read must have transferred exactly the bytes asked for):
    the run stops when the condition is false. *)
Definition BITCOIN_ASSERT (cond : bool) : M unit :=
  fun s => if cond then Returned tt s [] else AssertionFailed.

(** [log_debug()], [log_info()], [log_warning()] of bitcoin/util/logger.hpp:
    one line per statement. *)
Definition log_debug (text : string) : M unit := emit (ev_log debug text).
Definition log_info (text : string) : M unit := emit (ev_log info text).
Definition log_warning (text : string) : M unit := emit (ev_log warning text).

Definition decimal (n : N) : string := NilEmpty.string_of_uint (N.to_uint n).

(** ** Member functions of [channel_pimpl] *)

Definition destroy_self : M unit :=
  id <- gets (fun s => channel_id_ (this s)) ;;
  emit (ev_disconnect id).

Definition problems_check (ec : error_code) : M bool :=
  if error_code_eqb ec operation_aborted then
    (* Do nothing *)
    ret true
  else if is_set ec then
    destroy_self ;;;
    ret true
  else
    ret false.

Definition handle_timeout (ec : error_code) : M unit :=
  stop <- problems_check ec ;;
  if stop : bool then ret tt else
  log_info "Forcing disconnect due to timeout." ;;;
  (* No response for a while so disconnect *)
  destroy_self.

(** [timeout_->cancel()] *)
Definition timer_cancel : M unit :=
  modify (with_this (fun c =>
    set_timeout {| expires_at := expires_at (timeout_ c); waiting := false |} c)) ;;;
  emit ev_timer_cancel.

(** [timeout_->expires_from_now(d)] *)
Definition timer_expires_from_now (d : time_duration) : M unit :=
  now <- gets clock ;;
  modify (with_this (set_timeout {| expires_at := (now + d)%Z; waiting := false |})) ;;;
  emit (ev_timer_expires_from_now d).

(** [timeout_->async_wait(std::bind(&channel_pimpl::handle_timeout, this, _1))] *)
Definition timer_async_wait : M unit :=
  modify (with_this (fun c =>
    set_timeout {| expires_at := expires_at (timeout_ c); waiting := true |} c)) ;;;
  emit ev_timer_async_wait.

Definition reset_timeout : M unit :=
  timer_cancel ;;;
  timer_expires_from_now disconnect_timeout ;;;
  timer_async_wait.

Definition read_header : M unit :=
  emit (ev_async_read (N.of_nat header_chunk_size) cb_handle_read_header).

Definition read_checksum (header_msg : header) : M unit :=
  emit (ev_async_read (N.of_nat header_checksum_size)
          (cb_handle_read_checksum header_msg)).

Definition read_payload (header_msg : header) : M unit :=
  modify (with_this (fun c =>
    set_payload (resize (payload_length header_msg) (inbound_payload_ c)) c)) ;;;
  payload <- gets (fun s => inbound_payload_ (this s)) ;;
  emit (ev_async_read (buffer_size payload (payload_length header_msg))
          (cb_handle_read_payload header_msg)).

Definition handle_read_header (ec : error_code) (bytes_transferred : N) : M unit :=
  stop <- problems_check ec ;;
  if stop : bool then ret tt else
  BITCOIN_ASSERT (bytes_transferred =? N.of_nat header_chunk_size) ;;;
  header_stream <- gets (fun s => chunk_of_array (inbound_header_ (this s))) ;;
  BITCOIN_ASSERT (N.of_nat (List.length header_stream) =? N.of_nat header_chunk_size) ;;;
  tr <- gets (fun s => translator_ (this s)) ;;
  let header_msg := header_from_network tr header_stream in
  if negb (verify_header tr header_msg) then
    log_debug "Bad header received." ;;;
    destroy_self
  else
    log_info (String.append "r: " (String.append (command header_msg)
               (String.append " (" (String.append (decimal (payload_length header_msg))
                  " bytes)")))) ;;;
    (if checksum_used tr header_msg then
       (* Read checksum *)
       read_checksum header_msg
     else
       (* Read payload *)
       read_payload header_msg) ;;;
    reset_timeout.

Definition handle_read_checksum (header_msg : header) (ec : error_code)
    (bytes_transferred : N) : M unit :=
  stop <- problems_check ec ;;
  if stop : bool then ret tt else
  BITCOIN_ASSERT (bytes_transferred =? N.of_nat header_checksum_size) ;;;
  checksum_stream <- gets (fun s => chunk_of_array (inbound_checksum_ (this s))) ;;
  BITCOIN_ASSERT (N.of_nat (List.length checksum_stream) =? N.of_nat header_checksum_size) ;;;
  tr <- gets (fun s => translator_ (this s)) ;;
  let header_msg := set_checksum header_msg (checksum_from_network tr checksum_stream) in
  read_payload header_msg ;;;
  reset_timeout.

(** [network_->kernel()->recv_message(channel_id_, payload)] *)
Definition kernel_recv_message (payload : message) : M bool :=
  fun s =>
    let id := channel_id_ (this s) in
    let '(accepted, k) := recv_message (network_ (this s)) (the_kernel s) id payload in
    Returned accepted (with_kernel k s) [ev_recv_message id payload].

(** [transport_payload] of channel.hpp; [||] evaluates its right operand
    only when [ret_errc] is false. *)
Definition transport_payload (payload : message) (ret_errc : bool) : M bool :=
  failed <- (if ret_errc then ret true
             else accepted <- kernel_recv_message payload ;; ret (negb accepted)) ;;
  if failed : bool then
    destroy_self ;;;
    ret false
  else
    ret true.

Definition handle_read_payload (header_msg : header) (ec : error_code)
    (bytes_transferred : N) : M unit :=
  stop <- problems_check ec ;;
  if stop : bool then ret tt else
  BITCOIN_ASSERT (bytes_transferred =? payload_length header_msg) ;;;
  payload_stream <- gets (fun s => inbound_payload_ (this s)) ;;
  BITCOIN_ASSERT (N.of_nat (List.length payload_stream) =? payload_length header_msg) ;;;
  tr <- gets (fun s => translator_ (this s)) ;;
  if negb (verify_checksum tr header_msg payload_stream) then
    log_warning "Bad checksum!" ;;;
    destroy_self
  else
    let ret_errc := false in
    (* [go_on] is false where the source returns from inside a branch *)
    go_on <-
      (if String.eqb (command header_msg) "version" then
         let '(payload, ret_errc) := version_from_network tr header_msg payload_stream in
         transport_payload (msg_version payload) ret_errc
       else if String.eqb (command header_msg) "verack" then
         transport_payload msg_verack ret_errc
       else if String.eqb (command header_msg) "addr" then
         let '(payload, ret_errc) := addr_from_network tr header_msg payload_stream in
         transport_payload (msg_addr payload) ret_errc
       else if String.eqb (command header_msg) "inv" then
         let '(payload, ret_errc) := inv_from_network tr header_msg payload_stream in
         transport_payload (msg_inv payload) ret_errc
       else if String.eqb (command header_msg) "block" then
         let '(payload, ret_errc) := block_from_network tr header_msg payload_stream in
         transport_payload (msg_block payload) ret_errc
       else ret true) ;;
    if go_on : bool then
      read_header ;;;
      reset_timeout
    else ret tt.

Definition handle_send (ec : error_code) : M unit :=
  stop <- problems_check ec ;;
  if stop : bool then ret tt else ret tt.

Definition generic_send (message_packet : packet) : M unit :=
  tr <- gets (fun s => translator_ (this s)) ;;
  let msg := to_network tr message_packet in
  emit (ev_async_write msg).

Definition send (message_packet : packet) : M unit :=
  generic_send message_packet.

Definition get_id : M channel_handle :=
  gets (fun s => channel_id_ (this s)).

Definition create_version_message : M version :=
  (* this is test data. *)
  now <- gets clock ;;
  net <- gets (fun s => network_ (this s)) ;;
  let services := 1%Z in
  ret {| v_version := 31900;
         services := services;
         timestamp := now;
         addr_me := {| na_services := services;
                       ip_addr := get_ip_address net;
                       port := 8333 |};
         addr_you := {| na_services := services;
                        ip_addr := [x00; x00; x00; x00; x00; x00; x00; x00;
                                    x00; x00; xff; xff; x0a; x00; x00; x01];
                        port := 8333 |};
         nonce := 0xdeadbeef;
         sub_version_num := "";
         start_height := 0 |}.

(** The constructor. [raw] is the storage the object is built in: the
    member initialisers set [socket_], [network_] and [translator_], the
    vector starts empty, and the other members keep what the storage held
    until the body assigns them. *)
Definition member_init (dat : init_data) (raw : channel_pimpl) : channel_pimpl :=
  {| channel_id_ := channel_id_ raw;
     socket_ := socket dat;
     network_ := parent_gateway dat;
     translator_ := translator dat;
     inbound_header_ := inbound_header_ raw;
     inbound_checksum_ := inbound_checksum_ raw;
     inbound_payload_ := [];
     timeout_ := timeout_ raw |}.

(** [channel_id_ = chan_id_counter; chan_id_counter++;] *)
Definition assign_channel_id : M unit :=
  (* Unique IDs are assigned to channels by incrementing a shared counter
     among instances. *)
  c <- gets chan_id_counter ;;
  modify (with_this (set_channel_id c)) ;;;
  modify (with_counter (handle_incr handle_bits c)).

(** [timeout_.reset(new deadline_timer(...))]: a fresh timer on the service. *)
Definition new_deadline_timer : M unit :=
  modify (with_this (set_timeout {| expires_at := 0; waiting := false |})).

(** The statements of the constructor's body after the identity is
    assigned. *)
Definition start_io : M unit :=
  new_deadline_timer ;;;
  read_header ;;;
  reset_timeout ;;;
  (v <- create_version_message ;; send (pkt_version v)).

Definition constructor_body : M unit :=
  assign_channel_id ;;;
  start_io.

Definition construct (dat : init_data) (raw : channel_pimpl) (s : state) : outcome unit :=
  constructor_body (with_this (fun _ => member_init dat raw) s).

(** What the I/O service does when a read it was given completes: it calls
    the handler that was bound to it. *)
Definition run_callback (cb : callback) (ec : error_code) (bytes_transferred : N)
    : M unit :=
  match cb with
  | cb_handle_read_header => handle_read_header ec bytes_transferred
  | cb_handle_read_checksum header_msg =>
      handle_read_checksum header_msg ec bytes_transferred
  | cb_handle_read_payload header_msg =>
      handle_read_payload header_msg ec bytes_transferred
  end.

(** ** Reading a run's effects *)

Definition is_disconnect (e : event) : bool :=
  match e with ev_disconnect _ => true | _ => false end.

Definition is_async_read (e : event) : bool :=
  match e with ev_async_read _ _ => true | _ => false end.

Definition is_recv_message (e : event) : bool :=
  match e with ev_recv_message _ _ => true | _ => false end.

Definition is_timer_event (e : event) : bool :=
  match e with
  | ev_timer_cancel | ev_timer_expires_from_now _ | ev_timer_async_wait => true
  | _ => false
  end.

Definition count (p : event -> bool) (effects : list event) : nat :=
  List.length (filter p effects).

(** Teardown requests to the gateway, reads scheduled on the socket and
    deliveries to the kernel among the effects of a run. *)
Definition teardown_requests := count is_disconnect.
Definition reads_scheduled := count is_async_read.
Definition kernel_calls := count is_recv_message.

(** Position of the first effect satisfying [p]. *)
Fixpoint index_of (p : event -> bool) (effects : list event) : option nat :=
  match effects with
  | [] => None
  | e :: rest => if p e then Some O else option_map S (index_of p rest)
  end.

(** The three timer operations of [reset_timeout]. *)
Definition rearm : list event :=
  [ev_timer_cancel; ev_timer_expires_from_now disconnect_timeout; ev_timer_async_wait].

(** The state [reset_timeout] leaves: the deadline is a full timeout after
    the clock reading, and a wait is outstanding. *)
Definition rearmed (s : state) : state :=
  with_this (set_timeout {| expires_at := (clock s + disconnect_timeout)%Z;
                            waiting := true |}) s.

(** The command tags [handle_read_payload] hands to the kernel, and the
    tags of the spec's enumeration. *)
Definition dispatched_commands : list string :=
  ["version"; "verack"; "addr"; "inv"; "block"].

Definition enumerated_commands : list string :=
  ["version"; "verack"; "getaddr"; "getdata"; "getblocks"; "addr"; "inv"; "block"].

Definition mem_string (c : string) (l : list string) : bool :=
  existsb (String.eqb c) l.

(** The body and failure flag the dialect yields for a dispatched command
    ([verack] has no body to decode: its flag stays false). *)
Definition decode (tr : dialect) (header_msg : header) (payload_stream : data_chunk)
    : option (message * bool) :=
  if String.eqb (command header_msg) "version" then
    let '(payload, ret_errc) := version_from_network tr header_msg payload_stream in
    Some (msg_version payload, ret_errc)
  else if String.eqb (command header_msg) "verack" then
    Some (msg_verack, false)
  else if String.eqb (command header_msg) "addr" then
    let '(payload, ret_errc) := addr_from_network tr header_msg payload_stream in
    Some (msg_addr payload, ret_errc)
  else if String.eqb (command header_msg) "inv" then
    let '(payload, ret_errc) := inv_from_network tr header_msg payload_stream in
    Some (msg_inv payload, ret_errc)
  else if String.eqb (command header_msg) "block" then
    let '(payload, ret_errc) := block_from_network tr header_msg payload_stream in
    Some (msg_block payload, ret_errc)
  else None.

(** ** Completed read stages *)

(** The byte count of the read a callback was bound to; a read that
    completes without error has transferred exactly that many bytes. *)
Definition requested (cb : callback) : N :=
  match cb with
  | cb_handle_read_header => N.of_nat header_chunk_size
  | cb_handle_read_checksum _ => N.of_nat header_checksum_size
  | cb_handle_read_payload header_msg => payload_length header_msg
  end.

(** The payload vector still has the size [read_payload] gave it. *)
Definition buffer_ready (cb : callback) (s : state) : bool :=
  match cb with
  | cb_handle_read_payload header_msg =>
      N.of_nat (List.length (inbound_payload_ (this s))) =? payload_length header_msg
  | _ => true
  end.

(** Whether the completed stage passes the checks its handler makes: the
    header is valid; the payload's checksum verifies and, for a dispatched
    command, the decode does not fail and the kernel accepts. *)
Definition stage_succeeds (cb : callback) (s : state) : bool :=
  let tr := translator_ (this s) in
  match cb with
  | cb_handle_read_header =>
      verify_header tr (header_from_network tr (chunk_of_array (inbound_header_ (this s))))
  | cb_handle_read_checksum _ => true
  | cb_handle_read_payload header_msg =>
      let payload_stream := inbound_payload_ (this s) in
      verify_checksum tr header_msg payload_stream &&
      match decode tr header_msg payload_stream with
      | Some (m, ret_errc) =>
          negb ret_errc &&
          fst (recv_message (network_ (this s)) (the_kernel s) (channel_id_ (this s)) m)
      | None => true
      end
  end.

(** The effects end with one read followed at once by the three timer
    operations, and nothing before that read touches the socket's read side
    or the timer. *)
Definition read_then_rearm (effects : list event) : Prop :=
  exists before next,
    effects = before ++ next :: rearm /\
    is_async_read next = true /\
    reads_scheduled before = 0%nat /\
    count is_timer_event before = 0%nat.

(** The line [handle_read_header] logs for a valid header. *)
Definition header_log_line (header_msg : header) : event :=
  ev_log info
    (String.append "r: " (String.append (command header_msg)
       (String.append " (" (String.append (decimal (payload_length header_msg))
          " bytes)")))).

(** ** Several channels in one process *)

(** Channels built one after the other, each in its own storage, sharing
    the static counter, the kernel and the clock. The result lists the
    objects as their constructors left them, with the effects of all. *)
Fixpoint construct_all (dats : list (init_data * channel_pimpl)) (s : state)
    : outcome (list channel_pimpl) :=
  match dats with
  | [] => Returned [] s []
  | (dat, raw) :: rest =>
      match construct dat raw s with
      | Returned _ s1 e1 =>
          match construct_all rest s1 with
          | Returned chans s2 e2 => Returned (this s1 :: chans) s2 (e1 ++ e2)
          | AssertionFailed => AssertionFailed
          end
      | AssertionFailed => AssertionFailed
      end
  end.

(** The process before any channel exists:
    [channel_handle channel_pimpl::chan_id_counter = 0;] *)
Definition process_start (k : kernel) (now : Z) (raw : channel_pimpl) : state :=
  {| this := raw; chan_id_counter := 0%Z; the_kernel := k; clock := now |}.

(** The identity the [n]-th channel built gets when the counter stood at
    [c] before the first. *)
Definition nth_channel_id (c : channel_handle) (n : nat) : channel_handle :=
  Nat.iter n (handle_incr handle_bits) c.

(** ** The I/O service completing a read *)

Definition set_header_buf (b : byte_array header_chunk_size) (c : channel_pimpl) :=
  {| channel_id_ := channel_id_ c; socket_ := socket_ c; network_ := network_ c;
     translator_ := translator_ c; inbound_header_ := b;
     inbound_checksum_ := inbound_checksum_ c;
     inbound_payload_ := inbound_payload_ c; timeout_ := timeout_ c |}.

Definition set_checksum_buf (b : byte_array header_checksum_size) (c : channel_pimpl) :=
  {| channel_id_ := channel_id_ c; socket_ := socket_ c; network_ := network_ c;
     translator_ := translator_ c; inbound_header_ := inbound_header_ c;
     inbound_checksum_ := b;
     inbound_payload_ := inbound_payload_ c; timeout_ := timeout_ c |}.

(** The bytes received go to the front of the buffer the read was given;
    what lies behind them stays. *)
Fixpoint overwrite {n} (data : data_chunk) (a : byte_array n) : byte_array n :=
  match a in Vector.t _ k return byte_array k with
  | Vector.nil _ => Vector.nil _
  | Vector.cons _ x k rest =>
      match data with
      | [] => Vector.cons _ x k rest
      | d :: ds => Vector.cons _ d k (overwrite ds rest)
      end
  end.

Definition overwrite_chunk (data v : data_chunk) : data_chunk :=
  firstn (List.length v) data ++ skipn (List.length data) v.

(** [async_read(socket, buffer(...), callback)] completing: the service has
    stored the received bytes in the buffer the read named. *)
Definition store (cb : callback) (data : data_chunk) (s : state) : state :=
  match cb with
  | cb_handle_read_header =>
      with_this (fun c => set_header_buf (overwrite data (inbound_header_ c)) c) s
  | cb_handle_read_checksum _ =>
      with_this (fun c => set_checksum_buf (overwrite data (inbound_checksum_ c)) c) s
  | cb_handle_read_payload _ =>
      with_this (fun c => set_payload (overwrite_chunk data (inbound_payload_ c)) c) s
  end.

(** ... and then calls the handler with the error code and the number of
    bytes transferred. *)
Definition complete_read (cb : callback) (ec : error_code) (data : data_chunk)
    : M unit :=
  fun s => run_callback cb ec (N.of_nat (List.length data)) (store cb data s).

(** The handlers of the reads a run has issued, in order. *)
Definition scheduled (effects : list event) : list callback :=
  flat_map (fun e => match e with ev_async_read _ cb => [cb] | _ => [] end) effects.

(** ** A channel at work *)

(** The channel together with the reads it has issued that have not
    completed yet. *)
Record config := mk_config {
  chan : state;
  outstanding : list callback
}.

(** What can happen to a channel: the oldest outstanding read completes,
    the timer's wait completes, a write completes, its owner asks it to send,
    time passes. *)
Inductive action :=
| act_read (ec : error_code) (data : data_chunk)
| act_timer (ec : error_code)
| act_write (ec : error_code)
| act_send (message_packet : packet)
| act_tick (dt : Z).

(** What the I/O service can do: a read completes only if one is
    outstanding, never with more bytes than asked for, and without error only
    with exactly the bytes asked for; time does not run backwards. *)
Definition admissible (a : action) (c : config) : bool :=
  match a with
  | act_read ec data =>
      match outstanding c with
      | [] => false
      | cb :: _ =>
          if is_set ec
          then N.of_nat (List.length data) <=? requested cb
          else N.of_nat (List.length data) =? requested cb
      end
  | act_tick dt => (0 <=? dt)%Z
  | _ => true
  end.

Inductive run_result :=
| Ran (effects : list event) (c : config)
| Asserted
| Refused.

Definition advance (dt : Z) (s : state) : state :=
  {| this := this s; chan_id_counter := chan_id_counter s;
     the_kernel := the_kernel s; clock := (clock s + dt)%Z |}.

(** A member function run on the channel; the reads it issues join the
    outstanding ones. *)
Definition settle (rest : list callback) (o : outcome unit) : run_result :=
  match o with
  | Returned _ s effects => Ran effects {| chan := s; outstanding := rest ++ scheduled effects |}
  | AssertionFailed => Asserted
  end.

Definition perform (a : action) (c : config) : run_result :=
  match a with
  | act_read ec data =>
      match outstanding c with
      | [] => Refused
      | cb :: rest => settle rest (complete_read cb ec data (chan c))
      end
  | act_timer ec => settle (outstanding c) (handle_timeout ec (chan c))
  | act_write ec => settle (outstanding c) (handle_send ec (chan c))
  | act_send message_packet => settle (outstanding c) (send message_packet (chan c))
  | act_tick dt => Ran [] {| chan := advance dt (chan c); outstanding := outstanding c |}
  end.

Fixpoint run (acts : list action) (c : config) : run_result :=
  match acts with
  | [] => Ran [] c
  | a :: rest =>
      if admissible a c then
        match perform a c with
        | Ran e1 c1 =>
            match run rest c1 with
            | Ran e2 c2 => Ran (e1 ++ e2) c2
            | r => r
            end
        | r => r
        end
      else Refused
  end.

(** A channel from its construction on. *)
Definition session (dat : init_data) (raw : channel_pimpl) (s : state)
    (acts : list action) : run_result :=
  match settle [] (construct dat raw s) with
  | Ran e0 c0 =>
      match run acts c0 with
      | Ran e c => Ran (e0 ++ e) c
      | r => r
      end
  | r => r
  end.

(** [header_msg] is a header the dialect found valid, up to the checksum
    field, which is attached after the validation. *)
Definition validated (tr : dialect) (header_msg : header) : Prop :=
  exists c, verify_header tr (set_checksum header_msg c) = true.

(** What holds of a channel while the read bound to [cb] is outstanding. *)
Definition awaited (tr : dialect) (s : state) (cb : callback) : Prop :=
  match cb with
  | cb_handle_read_header => True
  | cb_handle_read_checksum header_msg => verify_header tr header_msg = true
  | cb_handle_read_payload header_msg =>
      N.of_nat (List.length (inbound_payload_ (this s))) = payload_length header_msg /\
      validated tr header_msg
  end.

(** The channel still has the dialect, the gateway and the identity it was
    built with, its deadline is at most a full timeout away, and at most one
    read is outstanding, in a state that fits it. *)
Definition consistent (tr : dialect) (net : network) (id : channel_handle)
    (c : config) : Prop :=
  translator_ (this (chan c)) = tr /\
  network_ (this (chan c)) = net /\
  channel_id_ (this (chan c)) = id /\
  (expires_at (timeout_ (this (chan c))) <= clock (chan c) + disconnect_timeout)%Z /\
  match outstanding c with
  | [] => True
  | [cb] => awaited tr (chan c) cb
  | _ => False
  end.

(** A delivery of [m] by channel [id] that followed the rules: the header
    was validated, the payload passed the checksum verification, and [m] is
    the body the dialect decoded without raising its failure flag. *)
Definition legitimate (tr : dialect) (id : channel_handle) (e : event) : Prop :=
  match e with
  | ev_recv_message i m =>
      i = id /\
      exists header_msg payload_stream,
        validated tr header_msg /\
        verify_checksum tr header_msg payload_stream = true /\
        decode tr header_msg payload_stream = Some (m, false)
  | ev_disconnect i => i = id
  | _ => True
  end.

(** The kernel's state after it has answered the deliveries among
    [effects], in their order, starting from [k]. *)
Definition replay (net : network) (effects : list event) (k : kernel) : kernel :=
  fold_left (fun k e =>
               match e with
               | ev_recv_message id m => snd (recv_message net k id m)
               | _ => k
               end) effects k.

Definition is_timer_wait (e : event) : bool :=
  match e with ev_timer_async_wait => true | _ => false end.

End Channel.

Arguments AssertionFailed {addr inv block getdata getblocks kernel A}.
Arguments Asserted {addr inv block getdata getblocks kernel}.
Arguments Refused {addr inv block getdata getblocks kernel}.

(** ** Fixtures: a dialect, a gateway and channels to run the code on *)

(** A dialect with unit bodies that parses every header chunk to [h] and
    answers the four questions as told. *)
Definition fixed_dialect (h : header) (valid with_checksum checksum_ok decode_fails : bool)
    : @dialect unit unit unit unit unit :=
  {| header_from_network := fun _ => h;
     verify_header := fun _ => valid;
     checksum_used := fun _ => with_checksum;
     checksum_from_network := fun _ => 0;
     verify_checksum := fun _ _ => checksum_ok;
     version_from_network := fun _ _ =>
       ({| v_version := 0; services := 0; timestamp := 0;
           addr_me := {| na_services := 0; ip_addr := []; port := 0 |};
           addr_you := {| na_services := 0; ip_addr := []; port := 0 |};
           nonce := 0; sub_version_num := ""; start_height := 0 |}, decode_fails);
     addr_from_network := fun _ _ => (tt, decode_fails);
     inv_from_network := fun _ _ => (tt, decode_fails);
     block_from_network := fun _ _ => (tt, decode_fails);
     to_network := fun _ => [] |}.

(** A gateway whose kernel counts the deliveries and answers [accepts]. *)
Definition fixed_network (ip : ip_address) (accepts : bool)
    : @network unit unit unit nat :=
  {| get_ip_address := ip;
     recv_message := fun k _ _ => (accepts, S k) |}.

Definition localhost : ip_address :=
  [x00; x00; x00; x00; x00; x00; x00; x00; x00; x00; xff; xff; x7f; x00; x00; x01].

Definition other_host : ip_address :=
  [x00; x00; x00; x00; x00; x00; x00; x00; x00; x00; xff; xff; xc0; xa8; x01; x02].

Definition sample_channel (net : @network unit unit unit nat)
    (tr : @dialect unit unit unit unit unit) (payload : data_chunk)
    : channel_pimpl :=
  {| channel_id_ := 7%Z;
     socket_ := 3;
     network_ := net;
     translator_ := tr;
     inbound_header_ := Vector.const x00 header_chunk_size;
     inbound_checksum_ := Vector.const x00 header_checksum_size;
     inbound_payload_ := payload;
     timeout_ := {| expires_at := 0; waiting := false |} |}.

Definition sample_state (net : @network unit unit unit nat)
    (tr : @dialect unit unit unit unit unit) (payload : data_chunk) : state :=
  {| this := sample_channel net tr payload;
     chan_id_counter := 8%Z;
     the_kernel := O;
     clock := 1000 |}.

Definition sample_init (net : @network unit unit unit nat)
    (tr : @dialect unit unit unit unit unit) (sock : nat)
    : @init_data unit unit unit unit unit nat :=
  {| parent_gateway := net; translator := tr; socket := sock |}.

Definition accepting_net := fixed_network localhost true.
Definition rejecting_net := fixed_network other_host false.

Definition mystery_header : header :=
  {| magic := 0xd9b4bef9; command := "mystery"; payload_length := 50; checksum := 0 |}.

Definition block_header : header :=
  {| magic := 0xd9b4bef9; command := "block"; payload_length := 50; checksum := 0 |}.

Definition getaddr_header : header :=
  {| magic := 0xd9b4bef9; command := "getaddr"; payload_length := 0; checksum := 0 |}.

Definition zeros50 : data_chunk := repeat x00 50.

(** Every header parses to [h] and passes every check. *)
Definition lenient (h : header) := fixed_dialect h true false true false.

(** As [lenient], but a checksum follows each header. *)
Definition checksummed (h : header) := fixed_dialect h true true true false.

(** As [checksummed], but no payload passes the checksum verification. *)
Definition strict (h : header) := fixed_dialect h true true false false.

(** Every header is refused. *)
Definition refusing (h : header) := fixed_dialect h false false true false.

(** Every body fails to decode. *)
Definition garbling (h : header) := fixed_dialect h true false true true.

Definition blank_storage : channel_pimpl :=
  sample_channel accepting_net (lenient mystery_header) [].

(** A channel waiting on its socket, with an empty payload vector. *)
Definition idle_state (tr : @dialect unit unit unit unit unit) : state :=
  sample_state accepting_net tr [].

(** A channel whose 50-byte payload read has just completed. *)
Definition payload_state (net : @network unit unit unit nat)
    (tr : @dialect unit unit unit unit unit) : state :=
  sample_state net tr zeros50.

Definition three_inits : list (init_data * channel_pimpl) :=
  [(sample_init accepting_net (lenient mystery_header) 3, blank_storage);
   (sample_init rejecting_net (strict block_header) 4, blank_storage);
   (sample_init accepting_net (lenient mystery_header) 5, blank_storage)].


(** A dialect that reads the header off the wire: 4 bytes of magic, the
    command in 12 bytes padded with NUL, the payload length in 4 bytes,
    little-endian. A checksum (here the sum of the payload bytes) follows the
    header of every command but version and verack. *)
Fixpoint little_endian (bytes : data_chunk) : N :=
  match bytes with
  | [] => 0
  | b :: rest => Byte.to_N b + 256 * little_endian rest
  end.

Fixpoint text_of (bytes : data_chunk) : string :=
  match bytes with
  | [] => EmptyString
  | b :: rest =>
      if Byte.eqb b x00 then EmptyString
      else String (Ascii.ascii_of_byte b) (text_of rest)
  end.

Definition byte_sum (bytes : data_chunk) : N :=
  fold_right (fun b acc => Byte.to_N b + acc) 0 bytes.

Definition wire_header (bytes : data_chunk) : header :=
  {| magic := little_endian (firstn 4 bytes);
     command := text_of (firstn 12 (skipn 4 bytes));
     payload_length := little_endian (firstn 4 (skipn 16 bytes));
     checksum := 0 |}.

Definition wire_checksum_used (h : header) : bool :=
  negb (String.eqb (command h) "version" || String.eqb (command h) "verack").

Definition wire_dialect : @dialect unit unit unit unit unit :=
  {| header_from_network := wire_header;
     verify_header := fun h => magic h =? 0xd9b4bef9;
     checksum_used := wire_checksum_used;
     checksum_from_network := little_endian;
     verify_checksum := fun h payload =>
       if wire_checksum_used h then checksum h =? byte_sum payload else true;
     version_from_network := fun _ _ =>
       ({| v_version := 0; services := 0; timestamp := 0;
           addr_me := {| na_services := 0; ip_addr := []; port := 0 |};
           addr_you := {| na_services := 0; ip_addr := []; port := 0 |};
           nonce := 0; sub_version_num := ""; start_height := 0 |}, false);
     addr_from_network := fun _ _ => (tt, false);
     inv_from_network := fun _ payload => (tt, match payload with [] => true | _ => false end);
     block_from_network := fun _ _ => (tt, false);
     to_network := fun _ => [x76; x65; x72] |}.

Definition wire_magic : data_chunk := [xf9; xbe; xb4; xd9].

(** The 20 header bytes of a verack with no payload, and of an inv with a
    3-byte payload. *)
Definition verack_bytes : data_chunk :=
  wire_magic ++ [x76; x65; x72; x61; x63; x6b; x00; x00; x00; x00; x00; x00]
  ++ [x00; x00; x00; x00].

Definition inv_bytes : data_chunk :=
  wire_magic ++ [x69; x6e; x76; x00; x00; x00; x00; x00; x00; x00; x00; x00]
  ++ [x03; x00; x00; x00].

Definition wire_init : @init_data unit unit unit unit unit nat :=
  {| parent_gateway := accepting_net; translator := wire_dialect; socket := 3 |}.

Definition verack_header : header :=
  {| magic := 0xd9b4bef9; command := "verack"; payload_length := 0; checksum := 0 |}.

Definition inv_header (sum : N) : header :=
  {| magic := 0xd9b4bef9; command := "inv"; payload_length := 3; checksum := sum |}.

(** A process in which no channel has been built yet. *)
Definition fresh_process : state := process_start O 1000 blank_storage.

(** A channel that waits for a header and whose next header will be
    refused. *)
Definition waiting_config : config :=
  {| chan := idle_state (refusing mystery_header);
     outstanding := [cb_handle_read_header] |}.

(** * tests/verify-block.cpp *)

Module VerifyBlock.

(** [std::error_code]: its value and the text [message()] gives for it. *)
Record error_code := {
  value : Z;
  message : string
}.

(** [if (ec)] *)
Definition is_error (ec : error_code) : bool := negb (value ec =? 0)%Z.

Definition newline : string := String (Ascii.ascii_of_nat 10) EmptyString.

Section Program.

(** [libbitcoin::message::block] *)
Context {block : Type}.

(** What the program does to the outside: lines on the logger, the standard
    output and the standard error, the request to the storage (with
    [recv_block] bound to it), the start of the verification (with
    [block_status] as its handler) and the wait for a key. *)
Inductive effect :=
| log_error (text : string)
| cout (text : string)
| cerr (text : string)
| fetch_block_by_depth (depth : N)
| verify_start (b : block)
| cin_get.

(** How a function ends: it returns, or it ends the process ([exit]). *)
Inductive ending :=
| returns
| exits (status : Z).

Definition block_status (ec : error_code) (is_good : bool) : list effect * ending :=
  ((if is_error ec
    then [log_error (String.append "Verifying block: "
                       (String.append (message ec) newline))]
    else [])
   ++ [cout (String.append "block is "
               (String.append (if is_good then "good" else "bad") newline))],
   exits 0).

Definition recv_block (ec : error_code) (b : block) : list effect * ending :=
  if is_error ec then
    ([cerr (String.append (message ec) newline)], returns)
  else
    ([verify_start b], returns).

(** What reaches the program while [main] waits in [std::cin.get()]: the
    storage answers the fetch, the verifier reports, a key is pressed. *)
Inductive incoming :=
| fetched (ec : error_code) (b : block)
| verified (ec : error_code) (is_good : bool)
| key_pressed.

(** The program under way: whether the fetch is still unanswered, the block
    whose verification is under way, and the exit status once it ended. *)
Record process := {
  fetch_pending : bool;
  verifying : option block;
  status : option Z
}.

(** [main] up to its wait: the fetch of the block at depth 2 with
    [recv_block] bound to it, then [std::cin.get()]. *)
Definition main_start : list effect * process :=
  ([fetch_block_by_depth 2; cin_get],
   {| fetch_pending := true; verifying := None; status := None |}).

Definition after (e : ending) (p : process) : process :=
  match e with
  | returns => p
  | exits st => {| fetch_pending := fetch_pending p; verifying := verifying p;
                   status := Some st |}
  end.

(** One thing reaching the program. The handlers are called when what they
    were bound to answers; a key ends the wait and [main] returns 0. *)
Definition react (i : incoming) (p : process) : list effect * process :=
  match status p with
  | Some _ => ([], p)
  | None =>
      match i with
      | fetched ec b =>
          if fetch_pending p then
            let '(effects, e) := recv_block ec b in
            (effects,
             after e {| fetch_pending := false;
                        verifying := if is_error ec then None else Some b;
                        status := None |})
          else ([], p)
      | verified ec is_good =>
          match verifying p with
          | Some _ =>
              let '(effects, e) := block_status ec is_good in
              (effects,
               after e {| fetch_pending := fetch_pending p; verifying := None;
                          status := None |})
          | None => ([], p)
          end
      | key_pressed =>
          ([], {| fetch_pending := fetch_pending p; verifying := verifying p;
                  status := Some 0%Z |})
      end
  end.

Fixpoint reacts (inputs : list incoming) (p : process) : list effect * process :=
  match inputs with
  | [] => ([], p)
  | i :: rest =>
      let '(e1, p1) := react i p in
      let '(e2, p2) := reacts rest p1 in
      (e1 ++ e2, p2)
  end.

(** The whole program on what reaches it. *)
Definition program (inputs : list incoming) : list effect * process :=
  let '(e0, p0) := main_start in
  let '(e, p) := reacts inputs p0 in
  (e0 ++ e, p).









End Program.

End VerifyBlock.

(** * Facts *)

Section ChannelFacts.

Context {addr inv block getdata getblocks kernel : Type}.

Local Abbreviation State := (@state addr inv block getdata getblocks kernel).
Local Abbreviation Dialect := (@dialect addr inv block getdata getblocks).
Local Abbreviation Event := (@event addr inv block).

Implicit Types (s : State) (ec : error_code) (h : header) (n : N).

(** ** Buffers *)

Lemma resize_length (n : N) (v : data_chunk) :
  List.length (resize n v) = N.to_nat n.
Proof.
  unfold resize.
  rewrite length_app, length_firstn, repeat_length.
  lia.
Qed.

Lemma buffer_size_resize (n : N) (v : data_chunk) :
  buffer_size (resize n v) n = n.
Proof.
  unfold buffer_size.
  rewrite resize_length, N2Nat.id.
  apply N.min_id.
Qed.

(** ** Error codes *)

Lemma error_code_eqb_eq (a b : error_code) :
  error_code_eqb a b = true <-> a = b.
Proof.
  destruct a, b; cbn [error_code_eqb]; split; intros H;
    try reflexivity; try discriminate.
  - apply Pos.eqb_eq in H. now subst.
  - injection H as ->. apply Pos.eqb_refl.
Qed.

(** ** What each member function does *)

Lemma outcome_eta (A : Type) (o : @outcome addr inv block getdata getblocks kernel A) :
  match o with
  | Returned a s e => Returned a s e
  | AssertionFailed => AssertionFailed
  end = o.
Proof. now destruct o. Qed.

Lemma destroy_self_run s :
  destroy_self s = Returned tt s [ev_disconnect (channel_id_ (this s))].
Proof. reflexivity. Qed.

Lemma problems_check_run ec s :
  problems_check ec s =
  match ec with
  | no_error => Returned false s []
  | operation_aborted => Returned true s []
  | io_failure _ => Returned true s [ev_disconnect (channel_id_ (this s))]
  end.
Proof. destruct ec; reflexivity. Qed.

Lemma reset_timeout_run s :
  reset_timeout s = Returned tt (rearmed s) rearm.
Proof. reflexivity. Qed.

Lemma read_header_run s :
  read_header s =
  Returned tt s [ev_async_read (N.of_nat header_chunk_size) cb_handle_read_header].
Proof. reflexivity. Qed.

Lemma read_payload_run h s :
  read_payload h s =
  Returned tt
    (with_this (set_payload (resize (payload_length h) (inbound_payload_ (this s)))) s)
    [ev_async_read (payload_length h) (cb_handle_read_payload h)].
Proof.
  unfold read_payload, bind, modify, gets, emit.
  cbn [this with_this set_payload inbound_payload_ app].
  now rewrite buffer_size_resize.
Qed.

Lemma transport_payload_run (m : message) (ret_errc : bool) s :
  transport_payload m ret_errc s =
  let id := channel_id_ (this s) in
  if ret_errc then Returned false s [ev_disconnect id]
  else
    let answer := recv_message (network_ (this s)) (the_kernel s) id m in
    if fst answer
    then Returned true (with_kernel (snd answer) s) [ev_recv_message id m]
    else Returned false (with_kernel (snd answer) s)
           [ev_recv_message id m; ev_disconnect id].
Proof.
  unfold transport_payload, bind, kernel_recv_message.
  destruct ret_errc; [reflexivity|].
  cbn zeta.
  destruct (recv_message _ _ _ _) as [[|] k]; reflexivity.
Qed.

(** After the error check, the assertions and the checksum check, the
    chain of command comparisons is a dispatch on [decode]. *)
Lemma handle_read_payload_dispatch h s :
  N.of_nat (List.length (inbound_payload_ (this s))) = payload_length h ->
  verify_checksum (translator_ (this s)) h (inbound_payload_ (this s)) = true ->
  handle_read_payload h no_error (payload_length h) s =
  match decode (translator_ (this s)) h (inbound_payload_ (this s)) with
  | Some (m, ret_errc) =>
      bind (transport_payload m ret_errc)
           (fun go_on : bool =>
              if go_on then bind read_header (fun _ => reset_timeout) else ret tt) s
  | None => bind read_header (fun _ => reset_timeout) s
  end.
Proof.
  intros Hlen Hsum.
  unfold handle_read_payload, decode.
  unfold bind at 1. rewrite problems_check_run.
  unfold bind at 1. unfold BITCOIN_ASSERT at 1. rewrite N.eqb_refl.
  unfold bind at 1. unfold gets at 1.
  unfold bind at 1. unfold BITCOIN_ASSERT at 1. rewrite Hlen, N.eqb_refl.
  unfold bind at 1. unfold gets at 1.
  rewrite Hsum. cbn [negb app].
  rewrite !outcome_eta.
  destruct (String.eqb (command h) "version");
    [destruct (version_from_network _ _ _); reflexivity|].
  destruct (String.eqb (command h) "verack"); [reflexivity|].
  destruct (String.eqb (command h) "addr");
    [destruct (addr_from_network _ _ _); reflexivity|].
  destruct (String.eqb (command h) "inv");
    [destruct (inv_from_network _ _ _); reflexivity|].
  destruct (String.eqb (command h) "block");
    [destruct (block_from_network _ _ _); reflexivity|].
  reflexivity.
Qed.

Lemma handle_read_header_run s :
  handle_read_header no_error (N.of_nat header_chunk_size) s =
  let tr := translator_ (this s) in
  let h := header_from_network tr (chunk_of_array (inbound_header_ (this s))) in
  if verify_header tr h then
    if checksum_used tr h then
      Returned tt (rearmed s)
        ([header_log_line h;
          ev_async_read (N.of_nat header_checksum_size) (cb_handle_read_checksum h)]
         ++ rearm)
    else
      Returned tt
        (rearmed (with_this (set_payload
                    (resize (payload_length h) (inbound_payload_ (this s)))) s))
        ([header_log_line h;
          ev_async_read (payload_length h) (cb_handle_read_payload h)] ++ rearm)
  else
    Returned tt s [ev_log debug "Bad header received.";
                   ev_disconnect (channel_id_ (this s))].
Proof.
  unfold handle_read_header.
  unfold bind at 1. rewrite problems_check_run.
  unfold bind at 1. unfold BITCOIN_ASSERT at 1. rewrite N.eqb_refl.
  unfold bind at 1. unfold gets at 1.
  unfold bind at 1. unfold BITCOIN_ASSERT at 1.
  unfold chunk_of_array at 1. rewrite Vector.length_to_list, N.eqb_refl.
  unfold bind at 1. unfold gets at 1.
  fold (chunk_of_array (inbound_header_ (this s))).
  cbv zeta.
  destruct (verify_header _ _); [|reflexivity].
  cbn [negb].
  destruct (checksum_used _ _).
  - reflexivity.
  - unfold bind, log_info, emit. cbn beta iota.
    rewrite read_payload_run. reflexivity.
Qed.

Lemma handle_read_checksum_run h s :
  handle_read_checksum h no_error (N.of_nat header_checksum_size) s =
  let c := checksum_from_network (translator_ (this s))
             (chunk_of_array (inbound_checksum_ (this s))) in
  Returned tt
    (rearmed (with_this (set_payload
                (resize (payload_length h) (inbound_payload_ (this s)))) s))
    (ev_async_read (payload_length h) (cb_handle_read_payload (set_checksum h c))
     :: rearm).
Proof.
  unfold handle_read_checksum.
  unfold bind at 1. rewrite problems_check_run.
  unfold bind at 1. unfold BITCOIN_ASSERT at 1. rewrite N.eqb_refl.
  unfold bind at 1. unfold gets at 1.
  unfold bind at 1. unfold BITCOIN_ASSERT at 1.
  unfold chunk_of_array at 1. rewrite Vector.length_to_list, N.eqb_refl.
  unfold bind at 1. unfold gets at 1.
  unfold bind at 1. rewrite read_payload_run.
  reflexivity.
Qed.

Lemma handle_read_payload_run h s :
  N.of_nat (List.length (inbound_payload_ (this s))) = payload_length h ->
  handle_read_payload h no_error (payload_length h) s =
  let id := channel_id_ (this s) in
  let next := ev_async_read (N.of_nat header_chunk_size) cb_handle_read_header in
  if verify_checksum (translator_ (this s)) h (inbound_payload_ (this s)) then
    match decode (translator_ (this s)) h (inbound_payload_ (this s)) with
    | Some (m, ret_errc) =>
        if ret_errc then Returned tt s [ev_disconnect id]
        else
          let answer := recv_message (network_ (this s)) (the_kernel s) id m in
          if fst answer
          then Returned tt (rearmed (with_kernel (snd answer) s))
                 ([ev_recv_message id m; next] ++ rearm)
          else Returned tt (with_kernel (snd answer) s)
                 [ev_recv_message id m; ev_disconnect id]
    | None => Returned tt (rearmed s) (next :: rearm)
    end
  else
    Returned tt s [ev_log warning "Bad checksum!"; ev_disconnect id].
Proof.
  intros Hlen. cbv zeta.
  destruct (verify_checksum _ _ _) eqn:Hsum.
  - rewrite (handle_read_payload_dispatch h s Hlen Hsum).
    destruct (decode _ _ _) as [[m [|]]|]; try reflexivity.
    unfold bind. rewrite transport_payload_run. cbv zeta.
    destruct (fst _); reflexivity.
  - unfold handle_read_payload.
    unfold bind at 1. rewrite problems_check_run.
    unfold bind at 1. unfold BITCOIN_ASSERT at 1. rewrite N.eqb_refl.
    unfold bind at 1. unfold gets at 1.
    unfold bind at 1. unfold BITCOIN_ASSERT at 1. rewrite Hlen, N.eqb_refl.
    unfold bind at 1. unfold gets at 1.
    rewrite Hsum. reflexivity.
Qed.

(** [decode] yields a message exactly for the five dispatched commands. *)
Lemma decode_none (tr : Dialect) h (payload_stream : data_chunk) :
  mem_string (command h) dispatched_commands = false ->
  decode tr h payload_stream = None.
Proof.
  unfold mem_string, dispatched_commands, decode. cbn [existsb].
  intros H.
  repeat (apply orb_false_elim in H; destruct H as [-> H]).
  reflexivity.
Qed.

(** ** Commands the channel does not dispatch *)

Lemma outside_enumeration_not_dispatched (c : string) :
  mem_string c enumerated_commands = false ->
  mem_string c dispatched_commands = false.
Proof.
  unfold mem_string, enumerated_commands, dispatched_commands. cbn [existsb].
  intros H.
  repeat (apply orb_false_elim in H; destruct H as [? H]).
  repeat (apply orb_false_intro; [assumption|]).
  reflexivity.
Qed.


(** A payload whose command is not dispatched: the kernel is not involved,
    and the checksum alone decides between looping and teardown. *)
Lemma undispatched_payload_run h s :
  mem_string (command h) dispatched_commands = false ->
  N.of_nat (List.length (inbound_payload_ (this s))) = payload_length h ->
  handle_read_payload h no_error (payload_length h) s =
  if verify_checksum (translator_ (this s)) h (inbound_payload_ (this s))
  then Returned tt (rearmed s)
         (ev_async_read (N.of_nat header_chunk_size) cb_handle_read_header :: rearm)
  else Returned tt s [ev_log warning "Bad checksum!";
                      ev_disconnect (channel_id_ (this s))].
Proof.
  intros Hcmd Hlen.
  rewrite (handle_read_payload_run h s Hlen). cbv zeta.
  now rewrite (decode_none _ _ _ Hcmd).
Qed.

(** ** Completions of any kind *)

Lemma handle_read_header_any ec n s :
  handle_read_header ec n s =
  match ec with
  | no_error =>
      if n =? N.of_nat header_chunk_size
      then handle_read_header no_error (N.of_nat header_chunk_size) s
      else AssertionFailed
  | operation_aborted => Returned tt s []
  | io_failure _ => Returned tt s [ev_disconnect (channel_id_ (this s))]
  end.
Proof.
  destruct ec; [|reflexivity|reflexivity].
  case_eq (n =? N.of_nat header_chunk_size); intros E.
  - apply N.eqb_eq in E. now subst n.
  - unfold handle_read_header, bind, BITCOIN_ASSERT.
    rewrite problems_check_run. now rewrite E.
Qed.

Lemma handle_read_checksum_any h ec n s :
  handle_read_checksum h ec n s =
  match ec with
  | no_error =>
      if n =? N.of_nat header_checksum_size
      then handle_read_checksum h no_error (N.of_nat header_checksum_size) s
      else AssertionFailed
  | operation_aborted => Returned tt s []
  | io_failure _ => Returned tt s [ev_disconnect (channel_id_ (this s))]
  end.
Proof.
  destruct ec; [|reflexivity|reflexivity].
  case_eq (n =? N.of_nat header_checksum_size); intros E.
  - apply N.eqb_eq in E. now subst n.
  - unfold handle_read_checksum, bind, BITCOIN_ASSERT.
    rewrite problems_check_run. now rewrite E.
Qed.

Lemma handle_read_payload_any h ec n s :
  handle_read_payload h ec n s =
  match ec with
  | no_error =>
      if (n =? payload_length h) &&
         (N.of_nat (List.length (inbound_payload_ (this s))) =? payload_length h)
      then handle_read_payload h no_error (payload_length h) s
      else AssertionFailed
  | operation_aborted => Returned tt s []
  | io_failure _ => Returned tt s [ev_disconnect (channel_id_ (this s))]
  end.
Proof.
  destruct ec; [|reflexivity|reflexivity].
  case_eq (n =? payload_length h); intros E; cbn [andb].
  - apply N.eqb_eq in E. subst n.
    case_eq (N.of_nat (List.length (inbound_payload_ (this s))) =? payload_length h);
      intros E'; [reflexivity|].
    unfold handle_read_payload, bind, BITCOIN_ASSERT, gets.
    rewrite problems_check_run, N.eqb_refl. now rewrite E'.
  - unfold handle_read_payload, bind, BITCOIN_ASSERT.
    rewrite problems_check_run. now rewrite E.
Qed.

(** A completion handler that returns leaves the channel's identity and the
    static counter as they were. *)
Lemma run_callback_keeps_id (cb : callback) ec n s s' (effects : list Event) :
  run_callback cb ec n s = Returned tt s' effects ->
  channel_id_ (this s') = channel_id_ (this s) /\
  chan_id_counter s' = chan_id_counter s.
Proof.
  destruct cb as [|h|h]; cbn [run_callback].
  - rewrite handle_read_header_any.
    destruct ec; [|now inversion 1|now inversion 1].
    destruct (n =? _); [|discriminate].
    rewrite handle_read_header_run. cbv zeta.
    destruct (verify_header _ _); [destruct (checksum_used _ _)|];
      inversion 1; split; reflexivity.
  - rewrite handle_read_checksum_any.
    destruct ec; [|now inversion 1|now inversion 1].
    destruct (n =? _); [|discriminate].
    rewrite handle_read_checksum_run. cbv zeta.
    inversion 1; split; reflexivity.
  - rewrite handle_read_payload_any.
    destruct ec; [|now inversion 1|now inversion 1].
    destruct (n =? _); cbn [andb]; [|discriminate].
    case_eq (N.of_nat (List.length (inbound_payload_ (this s))) =? payload_length h);
      intros E; [|discriminate].
    apply N.eqb_eq in E.
    rewrite (handle_read_payload_run h s E). cbv zeta.
    destruct (verify_checksum _ _ _); [|inversion 1; split; reflexivity].
    destruct (decode _ _ _) as [[m [|]]|]; [| |]; try (inversion 1; split; reflexivity).
    destruct (fst _); inversion 1; split; reflexivity.
Qed.


(** ** The constructor and the identity counter *)

Lemma construct_run bits (dat : init_data) (raw : channel_pimpl) s :
  exists s' v,
    construct bits dat raw s =
      Returned tt s'
        ([ev_async_read (N.of_nat header_chunk_size) cb_handle_read_header]
         ++ rearm
         ++ [ev_async_write (to_network (translator dat) (pkt_version v))]) /\
    create_version_message (with_this (fun _ => member_init dat raw) s) =
      Returned v (with_this (fun _ => member_init dat raw) s) [] /\
    channel_id_ (this s') = chan_id_counter s /\
    chan_id_counter s' = handle_incr bits (chan_id_counter s) /\
    the_kernel s' = the_kernel s /\
    clock s' = clock s.
Proof.
  do 2 eexists. split; [reflexivity|]. repeat split.
Qed.

Lemma nth_channel_id_succ bits (c : channel_handle) (i : nat) :
  nth_channel_id bits c (S i) = nth_channel_id bits (handle_incr bits c) i.
Proof. unfold nth_channel_id. apply Nat.iter_succ_r. Qed.

Lemma nth_channel_id_closed bits (c : channel_handle) (i : nat) :
  (0 <= c < 2 ^ Z.of_N bits)%Z ->
  nth_channel_id bits c i = ((c + Z.of_nat i) mod 2 ^ Z.of_N bits)%Z.
Proof.
  intros Hc. induction i as [|i IH].
  - cbn [nth_channel_id Nat.iter Z.of_nat].
    rewrite Z.add_0_r. symmetry. now apply Z.mod_small.
  - change (nth_channel_id bits c (S i))
      with (handle_incr bits (nth_channel_id bits c i)).
    rewrite IH.
    unfold handle_incr. rewrite Zplus_mod_idemp_l.
    f_equal. lia.
Qed.

(** Two remainders modulo [m] of numbers less than [m] apart differ. *)
Lemma mod_apart (m a d : Z) :
  (0 < d < m)%Z -> (a mod m <> (a + d) mod m)%Z.
Proof.
  intros Hd Heq.
  assert (Hm : (m <> 0)%Z) by lia.
  pose proof (Z.div_mod a m Hm) as Ha.
  pose proof (Z.div_mod (a + d) m Hm) as Hb.
  rewrite <- Heq in Hb.
  assert (Hk : (d = m * ((a + d) / m - a / m))%Z) by lia.
  remember ((a + d) / m - a / m)%Z as k.
  assert (0 < k < 1)%Z by nia.
  lia.
Qed.

Lemma construct_all_ids bits (dats : list (init_data * channel_pimpl)) :
  forall s, exists chans s' (effects : list Event),
    construct_all bits dats s = Returned chans s' effects /\
    map channel_id_ chans =
      map (nth_channel_id bits (chan_id_counter s)) (seq 0 (List.length dats)).
Proof.
  induction dats as [|[dat raw] rest IH]; intros s.
  - now exists [], s, [].
  - destruct (construct_run bits dat raw s)
      as (s1 & v & Hrun & _ & Hid & Hctr & _ & _).
    destruct (IH s1) as (chans & s2 & e2 & Hrest & Hids).
    cbn [construct_all]. rewrite Hrun, Hrest.
    do 3 eexists. split; [reflexivity|].
    cbn [map List.length seq]. rewrite Hid, Hids, Hctr.
    f_equal. rewrite <- seq_shift, map_map.
    apply map_ext. intros i. symmetry. apply nth_channel_id_succ.
Qed.

Lemma construct_all_nth bits (dats : list (init_data * channel_pimpl)) s :
  (0 <= chan_id_counter s < 2 ^ Z.of_N bits)%Z ->
  exists chans s' (effects : list Event),
    construct_all bits dats s = Returned chans s' effects /\
    List.length chans = List.length dats /\
    forall i c, nth_error chans i = Some c ->
      channel_id_ c = ((chan_id_counter s + Z.of_nat i) mod 2 ^ Z.of_N bits)%Z.
Proof.
  intros Hc.
  destruct (construct_all_ids bits dats s) as (chans & s' & effects & Hrun & Hids).
  exists chans, s', effects. split; [exact Hrun|].
  assert (Hlen : List.length chans = List.length dats).
  { apply (f_equal (@List.length _)) in Hids.
    now rewrite !length_map, length_seq in Hids. }
  split; [exact Hlen|].
  intros i c Hi.
  assert (Hlt : (i < List.length dats)%nat).
  { rewrite <- Hlen. apply nth_error_Some. congruence. }
  apply (map_nth_error channel_id_) in Hi.
  rewrite Hids, nth_error_map, nth_error_seq in Hi.
  apply Nat.ltb_lt in Hlt. rewrite Hlt in Hi.
  cbn [option_map Nat.add] in Hi.
  injection Hi as <-.
  now apply nth_channel_id_closed.
Qed.

(** Whatever the width, the channel built after [2^bits] others gets the
    identity of the first. *)
Lemma ids_wrap_around bits (dat : init_data) (raw : channel_pimpl)
    (k : kernel) (now : Z) :
  exists chans s' (effects : list Event),
    construct_all bits (repeat (dat, raw) (S (Z.to_nat (2 ^ Z.of_N bits))))
      (process_start k now raw) = Returned chans s' effects /\
    option_map channel_id_ (nth_error chans 0) = Some 0%Z /\
    option_map channel_id_ (nth_error chans (Z.to_nat (2 ^ Z.of_N bits))) = Some 0%Z /\
    ~ NoDup (map channel_id_ chans).
Proof.
  assert (Hpos : (0 < 2 ^ Z.of_N bits)%Z) by (apply Z.pow_pos_nonneg; lia).
  destruct (construct_all_nth bits
              (repeat (dat, raw) (S (Z.to_nat (2 ^ Z.of_N bits))))
              (process_start k now raw))
    as (chans & s' & effects & Hrun & Hlen & Hnth).
  { cbn [process_start chan_id_counter]. lia. }
  rewrite repeat_length in Hlen.
  exists chans, s', effects. split; [exact Hrun|].
  cbn [process_start chan_id_counter] in Hnth.
  assert (Hfirst : option_map channel_id_ (nth_error chans 0) = Some 0%Z).
  { destruct (nth_error chans 0) as [c|] eqn:E.
    - cbn [option_map]. f_equal. rewrite (Hnth _ _ E).
      now apply Z.mod_small.
    - apply nth_error_None in E. lia. }
  assert (Hlast : option_map channel_id_
                    (nth_error chans (Z.to_nat (2 ^ Z.of_N bits))) = Some 0%Z).
  { destruct (nth_error chans (Z.to_nat (2 ^ Z.of_N bits))) as [c|] eqn:E.
    - cbn [option_map]. f_equal. rewrite (Hnth _ _ E).
      rewrite Z2Nat.id by lia. rewrite Z.add_0_l.
      apply Z_mod_same_full.
    - apply nth_error_None in E. lia. }
  repeat split; [exact Hfirst|exact Hlast|].
  intros Hnodup.
  assert (Hsame : 0%nat = Z.to_nat (2 ^ Z.of_N bits)).
  { apply (proj1 (NoDup_nth_error (map channel_id_ chans)) Hnodup).
    - rewrite length_map. lia.
    - rewrite !nth_error_map. congruence. }
  lia.
Qed.

(** Members that never write the object. *)
Lemma other_members_keep_state ec (pkt : packet) s :
  (exists effects : list Event, handle_timeout ec s = Returned tt s effects) /\
  handle_send ec s =
    Returned tt s (match ec with
                   | io_failure _ => [ev_disconnect (channel_id_ (this s))]
                   | _ => []
                   end) /\
  send pkt s = Returned tt s [ev_async_write (to_network (translator_ (this s)) pkt)] /\
  get_id s = Returned (channel_id_ (this s)) s [].
Proof.
  repeat split; try reflexivity.
  - unfold handle_timeout, bind. rewrite problems_check_run.
    destruct ec; eexists; reflexivity.
  - unfold handle_send, bind. rewrite problems_check_run.
    destruct ec; reflexivity.
Qed.

(** * The claims *)

(** ** The inactivity timer *)

(** C1. A firing of the inactivity timer whose error code is not
    operation-aborted issues exactly one teardown request to the gateway (for
    this channel's identity); a firing that reflects a cancellation issues
    nothing and changes nothing. *)
Theorem handle_timeout_teardown ec s :
  exists effects : list Event,
    handle_timeout ec s = Returned tt s effects /\
    if error_code_eqb ec operation_aborted
    then effects = []
    else teardown_requests effects = 1%nat /\
         In (ev_disconnect (channel_id_ (this s))) effects /\
         reads_scheduled effects = 0%nat /\
         kernel_calls effects = 0%nat.
Proof.
  unfold handle_timeout, bind.
  rewrite problems_check_run.
  destruct ec as [| |v]; cbn [error_code_eqb].
  - eexists; split; [reflexivity|].
    repeat split; cbn; auto.
  - exists []; split; reflexivity.
  - eexists; split; [reflexivity|].
    repeat split; cbn; auto.
Qed.

(** ** Order of the next read and the timer *)

(** C2 (as the code has it). When a header, checksum or payload read
    completes with exactly the bytes asked for, the handler returns and
    either the stage passes its checks, and then the handler issues the next
    read first and the three timer operations right after it, in the same
    call, leaving the deadline a full timeout after the clock reading; or it
    fails them, and then the handler requests teardown once, schedules no
    read and leaves the timer alone. *)
Theorem stage_completion_reads_then_rearms (cb : callback) s n :
  n = requested cb ->
  buffer_ready cb s = true ->
  exists s' (effects : list Event),
    run_callback cb no_error n s = Returned tt s' effects /\
    if stage_succeeds cb s then
      read_then_rearm effects /\
      timeout_ (this s') =
        {| expires_at := (clock s + disconnect_timeout)%Z; waiting := true |} /\
      teardown_requests effects = 0%nat
    else
      teardown_requests effects = 1%nat /\
      reads_scheduled effects = 0%nat /\
      count is_timer_event effects = 0%nat /\
      timeout_ (this s') = timeout_ (this s).
Proof.
  intros -> Hready.
  destruct cb as [|h|h]; cbn [run_callback requested stage_succeeds].
  - rewrite handle_read_header_run. cbv zeta.
    destruct (verify_header _ _).
    + destruct (checksum_used _ _); do 2 eexists; (split; [reflexivity|]);
        (split; [|split; reflexivity]);
        (eexists [_], _; repeat split).
    + do 2 eexists. split; [reflexivity|]. repeat split.
  - rewrite handle_read_checksum_run. cbv zeta.
    do 2 eexists. split; [reflexivity|].
    split; [|split; reflexivity].
    exists [], (ev_async_read (payload_length h)
                  (cb_handle_read_payload
                     (set_checksum h
                        (checksum_from_network (translator_ (this s))
                           (chunk_of_array (inbound_checksum_ (this s))))))).
    repeat split.
  - cbn [buffer_ready] in Hready. apply N.eqb_eq in Hready.
    rewrite (handle_read_payload_run h s Hready). cbv zeta.
    destruct (verify_checksum _ _ _); cbn [andb].
    + destruct (decode _ _ _) as [[m [|]]|]; cbn [negb andb].
      * do 2 eexists. split; [reflexivity|]. repeat split.
      * destruct (fst _); do 2 eexists; (split; [reflexivity|]).
        -- split; [|split; reflexivity].
           eexists [_], _. repeat split.
        -- repeat split.
      * do 2 eexists. split; [reflexivity|].
        split; [|split; reflexivity].
        eexists [], _. repeat split.
    + do 2 eexists. split; [reflexivity|]. repeat split.
Qed.

(** ** Protocol violations *)

(** C3. A completed header read whose parsed header the dialect finds
    invalid issues exactly one teardown request and schedules no read (nor
    rearms the timer). *)
Theorem invalid_header_tears_down s n :
  n = N.of_nat header_chunk_size ->
  verify_header (translator_ (this s))
    (header_from_network (translator_ (this s))
       (chunk_of_array (inbound_header_ (this s)))) = false ->
  exists effects : list Event,
    handle_read_header no_error n s = Returned tt s effects /\
    teardown_requests effects = 1%nat /\
    In (ev_disconnect (channel_id_ (this s))) effects /\
    reads_scheduled effects = 0%nat /\
    count is_timer_event effects = 0%nat.
Proof.
  intros -> Hbad.
  unfold handle_read_header.
  unfold bind at 1. rewrite problems_check_run.
  unfold bind at 1. unfold BITCOIN_ASSERT at 1. rewrite N.eqb_refl.
  unfold bind at 1. unfold gets at 1.
  unfold bind at 1. unfold BITCOIN_ASSERT at 1.
  unfold chunk_of_array at 1. rewrite Vector.length_to_list, N.eqb_refl.
  unfold bind at 1. unfold gets at 1.
  fold (chunk_of_array (inbound_header_ (this s))).
  rewrite Hbad.
  eexists; split; [reflexivity|].
  repeat split; cbn; auto.
Qed.

(** C4. A completed payload read whose checksum the dialect refuses issues
    exactly one teardown request; nothing is handed to the kernel (whose
    state stays as it was) and no read is scheduled. *)
Theorem bad_checksum_tears_down h s n :
  n = payload_length h ->
  N.of_nat (List.length (inbound_payload_ (this s))) = payload_length h ->
  verify_checksum (translator_ (this s)) h (inbound_payload_ (this s)) = false ->
  exists effects : list Event,
    handle_read_payload h no_error n s = Returned tt s effects /\
    teardown_requests effects = 1%nat /\
    In (ev_disconnect (channel_id_ (this s))) effects /\
    kernel_calls effects = 0%nat /\
    reads_scheduled effects = 0%nat.
Proof.
  intros -> Hlen Hbad.
  unfold handle_read_payload.
  unfold bind at 1. rewrite problems_check_run.
  unfold bind at 1. unfold BITCOIN_ASSERT at 1. rewrite N.eqb_refl.
  unfold bind at 1. unfold gets at 1.
  unfold bind at 1. unfold BITCOIN_ASSERT at 1. rewrite Hlen, N.eqb_refl.
  unfold bind at 1. unfold gets at 1.
  rewrite Hbad.
  eexists; split; [reflexivity|].
  repeat split; cbn; auto.
Qed.

(** C5. In a dispatched cycle (the payload arrived, its checksum passed and
    the command is one the channel decodes): when the decode raises its
    failure flag the channel requests teardown without calling the kernel;
    when the decode succeeds and the kernel rejects the message the channel
    requests teardown exactly once after that one delivery; either way no
    read is scheduled, so the loop does not go back to awaiting a header. *)
Theorem failed_dispatch_tears_down h s n (m : message) (ret_errc : bool) :
  n = payload_length h ->
  N.of_nat (List.length (inbound_payload_ (this s))) = payload_length h ->
  verify_checksum (translator_ (this s)) h (inbound_payload_ (this s)) = true ->
  decode (translator_ (this s)) h (inbound_payload_ (this s)) = Some (m, ret_errc) ->
  let id := channel_id_ (this s) in
  let answer := recv_message (network_ (this s)) (the_kernel s) id m in
  (ret_errc = true ->
     handle_read_payload h no_error n s = Returned tt s [ev_disconnect id]) /\
  (ret_errc = false -> fst answer = false ->
     handle_read_payload h no_error n s =
       Returned tt (with_kernel (snd answer) s)
         [ev_recv_message id m; ev_disconnect id]) /\
  (ret_errc = true \/ fst answer = false ->
     exists s' (effects : list Event),
       handle_read_payload h no_error n s = Returned tt s' effects /\
       teardown_requests effects = 1%nat /\
       reads_scheduled effects = 0%nat /\
       count is_timer_event effects = 0%nat /\
       (ret_errc = true -> kernel_calls effects = 0%nat)).
Proof.
  intros -> Hlen Hsum Hdec id answer.
  rewrite (handle_read_payload_dispatch h s Hlen Hsum), Hdec.
  unfold bind. rewrite transport_payload_run.
  subst id answer. cbv zeta.
  destruct ret_errc.
  - split; [reflexivity|]. split; [discriminate|].
    intros _. do 2 eexists. split; [reflexivity|].
    repeat split; cbn; auto.
  - split; [discriminate|].
    split.
    + intros _ Hrej. rewrite Hrej. reflexivity.
    + intros [Habs|Hrej]; [discriminate|].
      rewrite Hrej. do 2 eexists. split; [reflexivity|].
      repeat split; cbn; auto. discriminate.
Qed.

(** ** Commands the channel does not dispatch *)

(** C6. For a header whose command is outside the
    enumeration, the payload read asks for exactly the declared number of
    bytes; when it completes, the kernel is not called whatever the checksum
    says; provided the dialect's checksum verification accepts the payload,
    no teardown is requested and the handler issues the read of the next
    header and rearms the timer; a payload that fails the verification is
    answered with one teardown request and no read. *)
Theorem unknown_command_is_drained h s n :
  mem_string (command h) enumerated_commands = false ->
  n = payload_length h ->
  N.of_nat (List.length (inbound_payload_ (this s))) = payload_length h ->
  (forall s0 : State, exists s1,
     read_payload h s0 =
       Returned tt s1 [ev_async_read (payload_length h) (cb_handle_read_payload h)]) /\
  exists s' (effects : list Event),
    handle_read_payload h no_error n s = Returned tt s' effects /\
    kernel_calls effects = 0%nat /\
    the_kernel s' = the_kernel s /\
    if verify_checksum (translator_ (this s)) h (inbound_payload_ (this s))
    then s' = rearmed s /\
         effects =
           ev_async_read (N.of_nat header_chunk_size) cb_handle_read_header :: rearm /\
         teardown_requests effects = 0%nat
    else teardown_requests effects = 1%nat /\
         reads_scheduled effects = 0%nat.
Proof.
  intros Hcmd -> Hlen.
  apply outside_enumeration_not_dispatched in Hcmd.
  rewrite (undispatched_payload_run h s Hcmd Hlen).
  split.
  - intros s0. rewrite read_payload_run. now eexists.
  - destruct (verify_checksum _ _ _); do 2 eexists; repeat split.
Qed.

(** ** The payload buffer *)

(** C7. For a header the dialect validated, the payload vector is resized
    to the declared payload length (zero included) before the read is issued:
    the read that is issued asks for exactly that many bytes whatever the
    vector held before, and the vector has that length when the handler
    returns. This holds on the direct path from the header and on the path
    through the checksum, where the length is that of the same header. *)
Theorem payload_buffer_matches_header s :
  let tr := translator_ (this s) in
  let h := header_from_network tr (chunk_of_array (inbound_header_ (this s))) in
  verify_header tr h = true ->
  (checksum_used tr h = false ->
     exists s',
       handle_read_header no_error (N.of_nat header_chunk_size) s =
         Returned tt s'
           ([header_log_line h;
             ev_async_read (payload_length h) (cb_handle_read_payload h)] ++ rearm) /\
       N.of_nat (List.length (inbound_payload_ (this s'))) = payload_length h) /\
  (checksum_used tr h = true ->
     handle_read_header no_error (N.of_nat header_chunk_size) s =
       Returned tt (rearmed s)
         ([header_log_line h;
           ev_async_read (N.of_nat header_checksum_size) (cb_handle_read_checksum h)]
          ++ rearm) /\
     forall s1 : State, exists s' h',
       handle_read_checksum h no_error (N.of_nat header_checksum_size) s1 =
         Returned tt s'
           (ev_async_read (payload_length h) (cb_handle_read_payload h') :: rearm) /\
       payload_length h' = payload_length h /\
       command h' = command h /\
       N.of_nat (List.length (inbound_payload_ (this s'))) = payload_length h) /\
  (forall s0 : State, exists s',
     read_payload h s0 =
       Returned tt s' [ev_async_read (payload_length h) (cb_handle_read_payload h)] /\
     N.of_nat (List.length (inbound_payload_ (this s'))) = payload_length h).
Proof.
  intros tr h Hvalid.
  split; [|split].
  - intros Hsum. rewrite handle_read_header_run. cbv zeta.
    fold tr; fold h. rewrite Hvalid, Hsum.
    eexists. split; [reflexivity|].
    cbn [rearmed with_this this set_timeout set_payload inbound_payload_].
    now rewrite resize_length, N2Nat.id.
  - intros Hsum. split.
    + rewrite handle_read_header_run. cbv zeta.
      fold tr; fold h. now rewrite Hvalid, Hsum.
    + intros s1. rewrite handle_read_checksum_run. cbv zeta.
      do 2 eexists. split; [reflexivity|].
      cbn [rearmed with_this this set_timeout set_payload inbound_payload_
           set_checksum payload_length command].
      now rewrite resize_length, N2Nat.id.
  - intros s0. rewrite read_payload_run.
    eexists. split; [reflexivity|].
    cbn [with_this this set_payload inbound_payload_].
    now rewrite resize_length, N2Nat.id.
Qed.

(** ** Identities *)

(** What the counter does guarantee. The constructor gives the channel
    the value of the static counter and advances the counter by one,
    wrapping at the width of [channel_handle]; no handler or other member
    changes the identity or the counter afterwards. So the [i]-th channel
    built has identity [(c + i) mod 2^bits], two channels built fewer than
    [2^bits] constructions apart never share an identity, and all channels
    are distinct as long as at most [2^bits] have been built. *)
Theorem channel_ids_distinct_until_wrap bits
    (dats : list (init_data * channel_pimpl)) s :
  (0 <= chan_id_counter s < 2 ^ Z.of_N bits)%Z ->
  (exists chans s' (effects : list Event),
     construct_all bits dats s = Returned chans s' effects /\
     List.length chans = List.length dats /\
     (forall i c, nth_error chans i = Some c ->
        channel_id_ c = ((chan_id_counter s + Z.of_nat i) mod 2 ^ Z.of_N bits)%Z) /\
     (forall i j ci cj,
        nth_error chans i = Some ci -> nth_error chans j = Some cj ->
        (i < j)%nat -> (Z.of_nat (j - i) < 2 ^ Z.of_N bits)%Z ->
        channel_id_ ci <> channel_id_ cj) /\
     ((Z.of_nat (List.length dats) <= 2 ^ Z.of_N bits)%Z ->
        NoDup (map channel_id_ chans))) /\
  (forall (dat : init_data) (raw : channel_pimpl) (s0 : State),
     exists s2 (effects : list Event),
       construct bits dat raw s0 = Returned tt s2 effects /\
       channel_id_ (this s2) = chan_id_counter s0 /\
       chan_id_counter s2 = handle_incr bits (chan_id_counter s0)) /\
  (forall (cb : callback) ec n (s0 s1 : State) (effects : list Event),
     run_callback cb ec n s0 = Returned tt s1 effects ->
     channel_id_ (this s1) = channel_id_ (this s0) /\
     chan_id_counter s1 = chan_id_counter s0) /\
  (forall ec (pkt : packet) (s0 : State),
     (exists effects : list Event, handle_timeout ec s0 = Returned tt s0 effects) /\
     (exists effects : list Event, handle_send ec s0 = Returned tt s0 effects) /\
     (exists effects : list Event, send pkt s0 = Returned tt s0 effects)).
Proof.
  intros Hc.
  split; [|split; [|split]].
  - destruct (construct_all_nth bits dats s Hc)
      as (chans & s' & effects & Hrun & Hlen & Hnth).
    exists chans, s', effects.
    assert (Hapart : forall i j ci cj,
               nth_error chans i = Some ci -> nth_error chans j = Some cj ->
               (i < j)%nat -> (Z.of_nat (j - i) < 2 ^ Z.of_N bits)%Z ->
               channel_id_ ci <> channel_id_ cj).
    { intros i j ci cj Hi Hj Hij Hnear.
      rewrite (Hnth i ci Hi), (Hnth j cj Hj).
      replace (chan_id_counter s + Z.of_nat j)%Z
        with ((chan_id_counter s + Z.of_nat i) + Z.of_nat (j - i))%Z by lia.
      apply mod_apart. lia. }
    repeat split; try assumption.
    intros Hfew. apply NoDup_nth_error.
    intros i j Hi Heq.
    rewrite length_map in Hi.
    rewrite !nth_error_map in Heq.
    destruct (nth_error chans i) as [ci|] eqn:Ei;
      [|apply nth_error_None in Ei; lia].
    destruct (nth_error chans j) as [cj|] eqn:Ej; [|discriminate].
    cbn [option_map] in Heq. injection Heq as Heq.
    assert (Hj : (j < List.length chans)%nat)
      by (apply nth_error_Some; congruence).
    destruct (Nat.lt_trichotomy i j) as [Hlt|[Heq'|Hgt]]; [|assumption|].
    + exfalso. apply (Hapart i j ci cj Ei Ej Hlt); [lia|assumption].
    + exfalso. apply (Hapart j i cj ci Ej Ei Hgt); [lia|congruence].
  - intros dat raw s0. do 2 eexists.
    split; [reflexivity|]. split; reflexivity.
  - intros cb ec n s0 s1 effects Hrun.
    exact (run_callback_keeps_id cb ec n s0 Hrun).
  - intros ec pkt s0.
    destruct (other_members_keep_state ec pkt s0) as (Ht & Hs & Hp & _).
    repeat split; [exact Ht|eexists; exact Hs|eexists; exact Hp].
Qed.

(** ** The handshake *)

(** C9 (as the code has it). The version message composed at construction
    takes only the local address from the gateway handed to the channel and
    the timestamp from the clock; protocol version, services, nonce, the
    peer's address octets, both ports, sub-version and start height are
    constants of the code, the same for every channel. The constructor sends
    its encoding after the first header read and the timer are set up. *)
Theorem handshake_fields_are_constants bits (dat : init_data)
    (raw : channel_pimpl) s :
  exists s' v,
    construct bits dat raw s =
      Returned tt s'
        ([ev_async_read (N.of_nat header_chunk_size) cb_handle_read_header]
         ++ rearm
         ++ [ev_async_write (to_network (translator dat) (pkt_version v))]) /\
    create_version_message (with_this (fun _ => member_init dat raw) s) =
      Returned v (with_this (fun _ => member_init dat raw) s) [] /\
    v = {| v_version := 31900;
           services := 1;
           timestamp := clock s;
           addr_me := {| na_services := 1;
                         ip_addr := get_ip_address (parent_gateway dat);
                         port := 8333 |};
           addr_you := {| na_services := 1;
                          ip_addr := [x00; x00; x00; x00; x00; x00; x00; x00;
                                      x00; x00; xff; xff; x0a; x00; x00; x01];
                          port := 8333 |};
           nonce := 0xdeadbeef;
           sub_version_num := "";
           start_height := 0 |}.
Proof.
  do 2 eexists. split; [reflexivity|]. split; reflexivity.
Qed.

(** ** Commands inside the enumeration that are not dispatched *)


(** * Further facts *)

Local Abbreviation Config := (@config addr inv block getdata getblocks kernel).
Local Abbreviation Network := (@network addr inv block kernel).

(** ** Bytes stored by a completed read *)

Lemma overwrite_exact (k : nat) (a : byte_array k) :
  forall data : data_chunk,
    List.length data = k -> chunk_of_array (overwrite data a) = data.
Proof.
  unfold chunk_of_array.
  induction a as [|x k a IH]; intros [|d ds] Hlen; try discriminate.
  - reflexivity.
  - cbn [overwrite]. rewrite Vector.to_list_cons.
    f_equal. apply IH. now injection Hlen.
Qed.

Lemma overwrite_chunk_length (data v : data_chunk) :
  List.length (overwrite_chunk data v) = List.length v.
Proof.
  unfold overwrite_chunk.
  rewrite length_app, length_firstn, length_skipn. lia.
Qed.

Lemma overwrite_chunk_exact (data v : data_chunk) :
  List.length data = List.length v -> overwrite_chunk data v = data.
Proof.
  intros Hlen. unfold overwrite_chunk.
  rewrite <- Hlen, firstn_all, skipn_all2 by lia.
  apply app_nil_r.
Qed.

Lemma store_keeps (cb : callback) (data : data_chunk) s :
  translator_ (this (store cb data s)) = translator_ (this s) /\
  network_ (this (store cb data s)) = network_ (this s) /\
  channel_id_ (this (store cb data s)) = channel_id_ (this s) /\
  timeout_ (this (store cb data s)) = timeout_ (this s) /\
  clock (store cb data s) = clock s /\
  the_kernel (store cb data s) = the_kernel s /\
  chan_id_counter (store cb data s) = chan_id_counter s /\
  List.length (inbound_payload_ (this (store cb data s)))
    = List.length (inbound_payload_ (this s)).
Proof.
  destruct cb; cbn; repeat split; try reflexivity.
  apply overwrite_chunk_length.
Qed.

Lemma set_checksum_same h : set_checksum h (checksum h) = h.
Proof. now destruct h. Qed.

Lemma set_checksum_twice h c c' :
  set_checksum (set_checksum h c) c' = set_checksum h c'.
Proof. reflexivity. Qed.

Lemma validated_self (tr : Dialect) h :
  verify_header tr h = true -> validated tr h.
Proof. intros H. exists (checksum h). now rewrite set_checksum_same. Qed.

Lemma validated_with_checksum (tr : Dialect) h c :
  verify_header tr h = true -> validated tr (set_checksum h c).
Proof.
  intros H. exists (checksum h).
  now rewrite set_checksum_twice, set_checksum_same.
Qed.

(** ** One step of a channel at work *)

Ltac keep_consistent :=
  repeat match goal with
         | |- _ /\ _ => split
         | |- consistent _ _ _ _ => unfold consistent; cbn
         | |- Forall _ rearm => unfold rearm
         | |- Forall _ [] => constructor
         | |- Forall _ (_ :: _) => constructor
         | |- legitimate _ _ _ => cbn [legitimate]
         | |- True => exact I
         | |- (_ <= _)%Z => cbn; lia
         | |- (_ <= _)%nat => cbn; lia
         | |- _ = _ => reflexivity || assumption
         end.

Lemma read_step (tr : Dialect) (net : Network) id (c : Config) ec data :
  consistent tr net id c ->
  admissible (act_read ec data) c = true ->
  exists effects c',
    perform (act_read ec data) c = Ran effects c' /\
    consistent tr net id c' /\
    Forall (legitimate tr id) effects /\
    (teardown_requests effects + List.length (outstanding c'))%nat
      = (if error_code_eqb ec operation_aborted then 0 else 1)%nat /\
    (kernel_calls effects <= 1)%nat.
Proof.
  destruct c as [s out].
  intros (Htr & Hnet & Hid & Htime & Hout) Hadm.
  cbn [chan outstanding] in *.
  destruct out as [|cb [|cb' out]]; [discriminate| |contradiction].
  cbn [admissible outstanding] in Hadm.
  cbn [perform outstanding]. unfold complete_read. cbn [chan].
  destruct (store_keeps cb data s)
    as (Str & Snet & Sid & Stime & Sclock & Sker & _ & Slen).
  set (s0 := store cb data s) in *.
  assert (Htime0 : (expires_at (timeout_ (this s0)) <= clock s0 + disconnect_timeout)%Z)
    by (rewrite Stime, Sclock; exact Htime).
  rewrite <- Str in Htr. rewrite <- Snet in Hnet. rewrite <- Sid in Hid.
  clearbody s0. clear Htime.
  change disconnect_timeout with 5400%Z in Htime0.
  destruct ec as [| |v]; cbn [is_set] in Hadm.
  - (* the read completed *)
    apply N.eqb_eq in Hadm.
    destruct cb as [|h|h]; cbn [run_callback requested awaited] in *.
    + rewrite Hadm, handle_read_header_run. cbv zeta. rewrite Htr.
      destruct (verify_header tr _) eqn:Hvalid;
        [destruct (checksum_used tr _)|];
        do 2 eexists; (split; [reflexivity|]);
        unfold header_log_line; cbn;
        keep_consistent.
      * now rewrite resize_length, N2Nat.id.
      * now apply validated_self.
    + rewrite Hadm, handle_read_checksum_run. cbv zeta.
      do 2 eexists. split; [reflexivity|].
      unfold header_log_line; cbn.
      keep_consistent.
      * now rewrite resize_length, N2Nat.id.
      * now apply validated_with_checksum.
    + destruct Hout as [Hlen Hval].
      rewrite Hadm.
      assert (Hlen0 : N.of_nat (List.length (inbound_payload_ (this s0)))
                      = payload_length h) by (rewrite Slen; exact Hlen).
      rewrite (handle_read_payload_run h s0 Hlen0). cbv zeta.
      rewrite Htr, Hnet, Hid.
      destruct (verify_checksum tr h _) eqn:Hsum.
      * destruct (decode tr h _) as [[m [|]]|] eqn:Hdec.
        -- do 2 eexists. split; [reflexivity|]. cbn. keep_consistent.
        -- destruct (fst _) eqn:Hacc;
             do 2 eexists; (split; [reflexivity|]);
             unfold header_log_line; cbn;
             keep_consistent;
             exists h, (inbound_payload_ (this s0)); auto.
        -- do 2 eexists. split; [reflexivity|]. cbn. keep_consistent.
      * do 2 eexists. split; [reflexivity|]. cbn. keep_consistent.
  - (* the read was cancelled *)
    exists [], {| chan := s0; outstanding := [] |}.
    split; [destruct cb; reflexivity|].
    cbn. keep_consistent.
  - (* the read failed *)
    exists [ev_disconnect id], {| chan := s0; outstanding := [] |}.
    split; [destruct cb; cbn; now rewrite Hid|].
    cbn. keep_consistent.
Qed.

Lemma settle_unchanged (out : list callback) s (effects : list Event) :
  scheduled effects = [] ->
  settle out (Returned tt s effects) = Ran effects {| chan := s; outstanding := out |}.
Proof. intros H. cbn [settle]. now rewrite H, app_nil_r. Qed.

(** Timer and write completions, sends and the passing of time leave the
    outstanding reads and the kernel alone. *)
Lemma side_step (a : action) (c : Config) :
  (forall ec data, a <> act_read ec data) ->
  admissible a c = true ->
  exists effects s',
    perform a c = Ran effects {| chan := s'; outstanding := outstanding c |} /\
    this s' = this (chan c) /\
    the_kernel s' = the_kernel (chan c) /\
    (clock (chan c) <= clock s')%Z /\
    kernel_calls effects = 0%nat /\
    reads_scheduled effects = 0%nat /\
    (teardown_requests effects <= 1)%nat /\
    (forall i, In (ev_disconnect i) effects -> i = channel_id_ (this (chan c))) /\
    Forall (fun e => is_recv_message e = false) effects.
Proof.
  intros Hnot Hadm.
  destruct c as [s out]. cbn [chan outstanding].
  destruct a as [ec data|ec|ec|pkt|dt]; cbn [perform chan outstanding].
  - now destruct (Hnot ec data).
  - unfold handle_timeout, bind. rewrite problems_check_run.
    destruct ec; cbn [log_info emit destroy_self bind gets ret];
      rewrite settle_unchanged by reflexivity;
      do 2 eexists; (split; [reflexivity|]);
      repeat split; cbn; try lia; intuition (try discriminate; try congruence);
      repeat constructor.
  - unfold handle_send, bind. rewrite problems_check_run.
    destruct ec; cbn [ret];
      rewrite settle_unchanged by reflexivity;
      do 2 eexists; (split; [reflexivity|]);
      repeat split; cbn; try lia; intuition (try discriminate; try congruence);
      repeat constructor.
  - unfold send, generic_send, bind, gets, emit.
    rewrite settle_unchanged by reflexivity.
    do 2 eexists. split; [reflexivity|].
    repeat split; cbn; try lia; intuition (try discriminate; try congruence).
    repeat constructor.
  - cbn [admissible] in Hadm. apply Z.leb_le in Hadm.
    do 2 eexists. split; [reflexivity|].
    repeat split; cbn; try lia; intuition (try discriminate; try congruence).
  all: repeat constructor.
Qed.

Lemma step_consistent (tr : Dialect) (net : Network) id (a : action) (c : Config) :
  consistent tr net id c ->
  admissible a c = true ->
  exists effects c',
    perform a c = Ran effects c' /\
    consistent tr net id c' /\
    Forall (legitimate tr id) effects.
Proof.
  intros Hc Hadm.
  assert (Hread : (exists ec data, a = act_read ec data) \/
                  (forall ec data, a <> act_read ec data)).
  { destruct a; [left; eauto| | | |]; right; discriminate. }
  destruct Hread as [(ec & data & ->)|Hside].
  - destruct (@read_step tr net id c ec data Hc Hadm)
      as (effects & c' & Hrun & Hc' & Hleg & _).
    now exists effects, c'.
  - destruct (@side_step a c Hside Hadm) as
      (effects & s' & Hrun & Hthis & Hker & Hclock & _ & _ & _ & Hids & Hno).
    exists effects, {| chan := s'; outstanding := outstanding c |}.
    split; [exact Hrun|].
    destruct Hc as (Htr & Hnet & Hid & Htime & Hout).
    split.
    + unfold consistent. cbn [chan outstanding]. rewrite Hthis.
      repeat split; try assumption; try lia.
      destruct (outstanding c) as [|cb [|? ?]]; try assumption.
      destruct cb; cbn [awaited] in *; try assumption. now rewrite Hthis.
    + apply Forall_forall. intros e He.
      destruct e; cbn [legitimate]; try exact I.
      * rewrite <- Hid. now apply Hids.
      * rewrite Forall_forall in Hno. specialize (Hno _ He). discriminate.
Qed.

Lemma run_consistent (tr : Dialect) (net : Network) id (acts : list action) :
  forall c : Config,
    consistent tr net id c ->
    match run acts c with
    | Ran effects c' => consistent tr net id c' /\ Forall (legitimate tr id) effects
    | Asserted => False
    | Refused => True
    end.
Proof.
  induction acts as [|a acts IH]; intros c Hc; cbn [run].
  - split; [exact Hc|constructor].
  - destruct (admissible a c) eqn:Hadm; [|exact I].
    destruct (@step_consistent tr net id a c Hc Hadm)
      as (e1 & c1 & Hrun & Hc1 & Hleg1).
    rewrite Hrun. specialize (IH c1 Hc1).
    destruct (run acts c1) as [e2 c2| |]; try assumption.
    destruct IH as [Hc2 Hleg2].
    split; [exact Hc2|]. apply Forall_app. now split.
Qed.

(** With no read outstanding nothing is read or delivered any more. *)
Lemma run_quiet (acts : list action) :
  forall c : Config,
    outstanding c = [] ->
    match run acts c with
    | Ran effects c' =>
        outstanding c' = [] /\
        kernel_calls effects = 0%nat /\
        reads_scheduled effects = 0%nat /\
        the_kernel (chan c') = the_kernel (chan c)
    | Asserted => False
    | Refused => True
    end.
Proof.
  induction acts as [|a acts IH]; intros c Hout; cbn [run].
  - repeat split. exact Hout.
  - destruct (admissible a c) eqn:Hadm; [|exact I].
    destruct (@side_step a c) as
      (e1 & s1 & Hrun & _ & Hker & _ & Hk1 & Hr1 & _).
    { intros ec data ->. cbn [admissible] in Hadm. now rewrite Hout in Hadm. }
    { exact Hadm. }
    rewrite Hrun.
    specialize (IH {| chan := s1; outstanding := outstanding c |} Hout).
    destruct (run acts _) as [e2 c2| |]; try assumption.
    destruct IH as (Hout2 & Hk2 & Hr2 & Hker2).
    cbn [chan] in Hker2.
    unfold kernel_calls, reads_scheduled, count in *.
    rewrite !filter_app, !length_app.
    repeat split; try assumption; try lia. congruence.
Qed.

Lemma construct_consistent bits (dat : init_data) (raw : channel_pimpl) s :
  exists effects c,
    settle [] (construct bits dat raw s) = Ran effects c /\
    consistent (translator dat) (parent_gateway dat) (chan_id_counter s) c /\
    Forall (legitimate (translator dat) (chan_id_counter s)) effects /\
    outstanding c = [cb_handle_read_header].
Proof.
  do 2 eexists. split; [reflexivity|].
  split; [|split; [|reflexivity]].
  - unfold consistent. cbn. repeat split. lia.
  - repeat constructor.
Qed.

Lemma read_error_completion_aborted (cb : callback) n s :
  run_callback cb operation_aborted n s = Returned tt s [].
Proof. destruct cb; reflexivity. Qed.

Lemma read_error_completion_failed (cb : callback) v n s :
  run_callback cb (io_failure v) n s =
    Returned tt s [ev_disconnect (channel_id_ (this s))].
Proof. destruct cb; reflexivity. Qed.

(** ** The kernel's state and the timer along a run *)

(** What a completion handler that returns has done to the kernel, and how
    often it armed the timer. *)
Lemma run_callback_accounts (cb : callback) ec n s s' (effects : list Event) :
  run_callback cb ec n s = Returned tt s' effects ->
  the_kernel s' = replay (network_ (this s)) effects (the_kernel s) /\
  count is_timer_wait effects = reads_scheduled effects.
Proof.
  destruct cb as [|h|h]; cbn [run_callback].
  - rewrite handle_read_header_any.
    destruct ec; [|now inversion 1|now inversion 1].
    destruct (n =? _); [|discriminate].
    rewrite handle_read_header_run. cbv zeta.
    destruct (verify_header _ _); [destruct (checksum_used _ _)|];
      inversion 1; split; reflexivity.
  - rewrite handle_read_checksum_any.
    destruct ec; [|now inversion 1|now inversion 1].
    destruct (n =? _); [|discriminate].
    rewrite handle_read_checksum_run. cbv zeta.
    inversion 1; split; reflexivity.
  - rewrite handle_read_payload_any.
    destruct ec; [|now inversion 1|now inversion 1].
    destruct (n =? _); cbn [andb]; [|discriminate].
    case_eq (N.of_nat (List.length (inbound_payload_ (this s))) =? payload_length h);
      intros E; [|discriminate].
    apply N.eqb_eq in E.
    rewrite (handle_read_payload_run h s E). cbv zeta.
    destruct (verify_checksum _ _ _); [|inversion 1; split; reflexivity].
    destruct (decode _ _ _) as [[m [|]]|]; [| |]; try (inversion 1; split; reflexivity).
    destruct (fst _); inversion 1; split; reflexivity.
Qed.

Lemma replay_app (net : Network) (e1 e2 : list Event) (k : kernel) :
  replay net (e1 ++ e2) k = replay net e2 (replay net e1 k).
Proof. unfold replay. apply fold_left_app. Qed.

Lemma step_accounts (tr : Dialect) (net : Network) id (a : action) (c : Config)
    (effects : list Event) (c' : Config) :
  consistent tr net id c ->
  perform a c = Ran effects c' ->
  the_kernel (chan c') = replay net effects (the_kernel (chan c)) /\
  count is_timer_wait effects = reads_scheduled effects.
Proof.
  intros (_ & Hnet & _) Hrun.
  destruct c as [s out]. cbn [chan outstanding] in *.
  destruct a as [ec data|ec|ec|pkt|dt]; cbn [perform chan outstanding] in Hrun.
  - destruct out as [|cb rest]; [discriminate|].
    unfold complete_read in Hrun.
    destruct (run_callback cb ec _ _) as [[] s1 e1|] eqn:Hcb; [|discriminate].
    cbn [settle] in Hrun. injection Hrun as <- <-. cbn [chan].
    destruct (run_callback_accounts _ _ _ _ Hcb) as [Hk Hw].
    destruct (store_keeps cb data s) as (_ & Snet & _ & _ & _ & Sker & _).
    rewrite Snet, Sker, Hnet in Hk. now split.
  - unfold handle_timeout, bind in Hrun. rewrite problems_check_run in Hrun.
    destruct ec; cbn in Hrun; injection Hrun as <- <-; split; reflexivity.
  - unfold handle_send, bind in Hrun. rewrite problems_check_run in Hrun.
    destruct ec; cbn in Hrun; injection Hrun as <- <-; split; reflexivity.
  - cbn in Hrun. injection Hrun as <- <-. split; reflexivity.
  - injection Hrun as <- <-. split; reflexivity.
Qed.

Lemma run_accounts (tr : Dialect) (net : Network) id (acts : list action) :
  forall c : Config,
    consistent tr net id c ->
    match run acts c with
    | Ran effects c' =>
        the_kernel (chan c') = replay net effects (the_kernel (chan c)) /\
        count is_timer_wait effects = reads_scheduled effects
    | Asserted => False
    | Refused => True
    end.
Proof.
  induction acts as [|a acts IH]; intros c Hc; cbn [run].
  - split; reflexivity.
  - destruct (admissible a c) eqn:Hadm; [|exact I].
    destruct (@step_consistent tr net id a c Hc Hadm)
      as (e1 & c1 & Hrun & Hc1 & _).
    rewrite Hrun.
    destruct (step_accounts a Hc Hrun) as [Hk1 Hw1].
    specialize (IH c1 Hc1).
    destruct (run acts c1) as [e2 c2| |]; try assumption.
    destruct IH as [Hk2 Hw2].
    split.
    + now rewrite replay_app, <- Hk1.
    + unfold reads_scheduled, count in *.
      rewrite !filter_app, !length_app. lia.
Qed.

(** * Further properties *)

(** ** Completions with an error *)

(** X1. A read completion that carries an error is handled without looking
    at the byte count or the buffers: a cancellation leaves no trace, any
    other error gives exactly one teardown request for the channel's own
    identity; in both cases the state is untouched, nothing is handed to
    the kernel, no read is issued and the timer is not rearmed. *)
Theorem read_error_completion (cb : callback) ec n s :
  is_set ec = true ->
  run_callback cb ec n s =
    Returned tt s
      (if error_code_eqb ec operation_aborted
       then []
       else [ev_disconnect (channel_id_ (this s))]).
Proof.
  intros Hset.
  destruct ec as [| |v]; [discriminate| |]; destruct cb; reflexivity.
Qed.

(** X2. Sending is no activity for the inactivity timer: [send] issues the
    one write of the dialect's encoding, and the completion of that write
    neither rearms the timer nor issues a read nor changes the channel; a
    failed write requests teardown once, a successful or cancelled one has
    no effect. *)
Theorem send_then_completion (pkt : packet) ec s :
  exists effects : list Event,
    bind (send pkt) (fun _ => handle_send ec) s = Returned tt s effects /\
    effects =
      ev_async_write (to_network (translator_ (this s)) pkt)
      :: (if is_set ec && negb (error_code_eqb ec operation_aborted)
          then [ev_disconnect (channel_id_ (this s))]
          else []) /\
    count is_timer_event effects = 0%nat /\
    reads_scheduled effects = 0%nat /\
    kernel_calls effects = 0%nat.
Proof.
  unfold bind, send, generic_send, handle_send, gets, emit, bind.
  rewrite problems_check_run.
  destruct ec; eexists; (split; [reflexivity|]); repeat split.
Qed.

(** ** One completion, one consequence *)

(** X3. Every read completion has exactly one consequence: unless it was
    cancelled, the handler either issues exactly one new read or requests
    teardown exactly once, never both and never neither; a cancelled one
    does neither. The kernel is called at most once, and only by the payload
    handler. *)
Theorem completion_continues_or_tears_down (cb : callback) ec n s :
  (is_set ec = false -> n = requested cb /\ buffer_ready cb s = true) ->
  exists s' (effects : list Event),
    run_callback cb ec n s = Returned tt s' effects /\
    (reads_scheduled effects + teardown_requests effects)%nat
      = (if error_code_eqb ec operation_aborted then 0 else 1)%nat /\
    (kernel_calls effects <= 1)%nat /\
    (kernel_calls effects = 1%nat -> exists h, cb = cb_handle_read_payload h).
Proof.
  intros Hok.
  destruct ec as [| |v].
  - destruct (Hok eq_refl) as [-> Hready].
    destruct cb as [|h|h]; cbn [run_callback requested].
    + rewrite handle_read_header_run. cbv zeta.
      destruct (verify_header _ _); [destruct (checksum_used _ _)|];
        do 2 eexists; (split; [reflexivity|]);
        repeat split; cbn; try lia; discriminate.
    + rewrite handle_read_checksum_run. cbv zeta.
      do 2 eexists. split; [reflexivity|].
      repeat split; cbn; try lia; discriminate.
    + cbn [buffer_ready] in Hready. apply N.eqb_eq in Hready.
      rewrite (handle_read_payload_run h s Hready). cbv zeta.
      destruct (verify_checksum _ _ _);
        [destruct (decode _ _ _) as [[m [|]]|]; [|destruct (fst _)|]|];
        do 2 eexists; (split; [reflexivity|]);
        repeat split; cbn; try lia; eauto; discriminate.
  - rewrite read_error_completion_aborted.
    do 2 eexists. split; [reflexivity|].
    repeat split; cbn; try lia; discriminate.
  - rewrite read_error_completion_failed.
    do 2 eexists. split; [reflexivity|].
    repeat split; cbn; try lia; discriminate.
Qed.

(** ** The accepted message *)

(** X4. A payload that passes the checksum verification, decodes without
    failure and is accepted by the kernel is delivered exactly once, under
    the channel's identity and before anything else; the kernel's new state
    is kept, no teardown is requested, and the handler goes on with the read
    of the next header and the rearming of the timer. *)
Theorem accepted_message_is_delivered_once h s n (m : message) :
  n = payload_length h ->
  N.of_nat (List.length (inbound_payload_ (this s))) = payload_length h ->
  verify_checksum (translator_ (this s)) h (inbound_payload_ (this s)) = true ->
  decode (translator_ (this s)) h (inbound_payload_ (this s)) = Some (m, false) ->
  fst (recv_message (network_ (this s)) (the_kernel s) (channel_id_ (this s)) m) = true ->
  handle_read_payload h no_error n s =
    Returned tt
      (rearmed (with_kernel
         (snd (recv_message (network_ (this s)) (the_kernel s) (channel_id_ (this s)) m))
         s))
      ([ev_recv_message (channel_id_ (this s)) m;
        ev_async_read (N.of_nat header_chunk_size) cb_handle_read_header] ++ rearm).
Proof.
  intros -> Hlen Hsum Hdec Hacc.
  rewrite (handle_read_payload_run h s Hlen). cbv zeta.
  now rewrite Hsum, Hdec, Hacc.
Qed.

(** ** What the dialect is shown *)

(** X5. When the header read completes with its 20 bytes, the header the
    channel acts on is the dialect's parse of exactly those bytes, whatever
    the buffer held before: an invalid one gives a teardown request and no
    read; a valid one gives the read of the checksum or of the payload, as
    the dialect says, bound to that header. *)
Theorem header_is_parsed_from_received_bytes (data : data_chunk) s :
  List.length data = header_chunk_size ->
  let tr := translator_ (this s) in
  let h := header_from_network tr data in
  exists s' (effects : list Event),
    complete_read cb_handle_read_header no_error data s = Returned tt s' effects /\
    scheduled effects =
      (if verify_header tr h
       then [if checksum_used tr h
             then cb_handle_read_checksum h
             else cb_handle_read_payload h]
       else []) /\
    teardown_requests effects = (if verify_header tr h then 0 else 1)%nat.
Proof.
  intros Hlen tr h. unfold complete_read. cbn [run_callback].
  rewrite Hlen, handle_read_header_run. cbv zeta.
  cbn [store with_this this set_header_buf translator_ inbound_header_].
  rewrite (overwrite_exact (inbound_header_ (this s)) data Hlen).
  fold tr. fold h.
  destruct (verify_header tr h); [destruct (checksum_used tr h)|];
    do 2 eexists; (split; [reflexivity|]); split; reflexivity.
Qed.

(** X6. When the checksum read completes with its 4 bytes, the payload read
    is issued for the declared length of the same header, and the header
    handed on carries the dialect's parse of exactly those bytes as its
    checksum, all other fields unchanged. *)
Theorem checksum_is_parsed_from_received_bytes h (data : data_chunk) s :
  List.length data = header_checksum_size ->
  exists s',
    complete_read (cb_handle_read_checksum h) no_error data s =
      Returned tt s'
        (ev_async_read (payload_length h)
           (cb_handle_read_payload
              (set_checksum h (checksum_from_network (translator_ (this s)) data)))
         :: rearm) /\
    N.of_nat (List.length (inbound_payload_ (this s'))) = payload_length h.
Proof.
  intros Hlen. unfold complete_read. cbn [run_callback].
  rewrite Hlen, handle_read_checksum_run. cbv zeta.
  cbn [store with_this this set_checksum_buf translator_ inbound_checksum_
       inbound_payload_].
  rewrite (overwrite_exact (inbound_checksum_ (this s)) data Hlen).
  eexists. split; [reflexivity|].
  cbn [rearmed with_this this set_timeout set_payload inbound_payload_].
  now rewrite resize_length, N2Nat.id.
Qed.

(** X7. When the payload read completes with the declared number of bytes,
    the checksum verification and the decode are applied to exactly the
    bytes received: the kernel is called if and only if those bytes pass
    the verification and decode to a message without failure, and then it is
    handed that message. *)
Theorem payload_is_judged_on_received_bytes h (data : data_chunk) s :
  N.of_nat (List.length data) = payload_length h ->
  List.length (inbound_payload_ (this s)) = List.length data ->
  let tr := translator_ (this s) in
  exists s' (effects : list Event),
    complete_read (cb_handle_read_payload h) no_error data s = Returned tt s' effects /\
    inbound_payload_ (this s') = data /\
    (kernel_calls effects = 1%nat <->
       verify_checksum tr h data = true /\
       exists m, decode tr h data = Some (m, false)) /\
    (forall i (m : message), In (ev_recv_message i m) effects ->
       i = channel_id_ (this s) /\ decode tr h data = Some (m, false)).
Proof.
  intros Hdata Hbuf tr. unfold complete_read. cbn [run_callback].
  assert (Hstored : inbound_payload_ (this (store (cb_handle_read_payload h) data s))
                    = data).
  { cbn [store with_this this set_payload inbound_payload_].
    apply overwrite_chunk_exact. now symmetry. }
  rewrite Hdata.
  rewrite handle_read_payload_run by (rewrite Hstored; exact Hdata).
  cbv zeta. rewrite Hstored.
  replace (translator_ (this (store (cb_handle_read_payload h) data s)))
    with tr by reflexivity.
  destruct (verify_checksum tr h data).
  - destruct (decode tr h data) as [[m [|]]|].
    + do 2 eexists. split; [reflexivity|]. split; [exact Hstored|].
      split; [split; [discriminate|intros [_ [m' Hm']]; discriminate]|].
      intros i m' [Hin|[]]. discriminate.
    + destruct (fst _); do 2 eexists; (split; [reflexivity|]);
        (split; [exact Hstored|]).
      * split; [split; [eauto|reflexivity]|].
        cbn [In app rearm]. intros i m' Hin.
        destruct Hin as [Hin|Hin]; [injection Hin as <- <-; now split|].
        intuition discriminate.
      * split; [split; [eauto|reflexivity]|].
        cbn [In]. intros i m' Hin.
        destruct Hin as [Hin|Hin]; [injection Hin as <- <-; now split|].
        intuition discriminate.
    + do 2 eexists. split; [reflexivity|]. split; [exact Hstored|].
      split; [split; [discriminate|intros [_ [m' Hm']]; discriminate]|].
      cbn [In rearm]. intros i m' Hin. intuition discriminate.
  - do 2 eexists. split; [reflexivity|]. split; [exact Hstored|].
    split; [split; [discriminate|intros [Hf _]; discriminate]|].
    cbn [In]. intros i m' Hin. intuition discriminate.
Qed.

(** ** Building channels *)

(** X8. Building [k] channels one after the other never fails: it issues
    exactly [k] header reads and [k] handshake writes, requests no teardown
    and does not involve the kernel; it advances the static counter by [k]
    steps (wrapping) and leaves every channel with an empty payload vector
    and its deadline a full timeout after the clock reading. *)
Theorem construct_all_effects bits (dats : list (init_data * channel_pimpl)) :
  forall s, exists chans s' (effects : list Event),
    construct_all bits dats s = Returned chans s' effects /\
    reads_scheduled effects = List.length dats /\
    List.length (filter (fun e => match e with ev_async_write _ => true | _ => false end)
                   effects) = List.length dats /\
    teardown_requests effects = 0%nat /\
    kernel_calls effects = 0%nat /\
    the_kernel s' = the_kernel s /\
    clock s' = clock s /\
    chan_id_counter s' = nth_channel_id bits (chan_id_counter s) (List.length dats) /\
    Forall (fun c => inbound_payload_ c = [] /\
                     timeout_ c = {| expires_at := (clock s + disconnect_timeout)%Z;
                                     waiting := true |})
           chans.
Proof.
  induction dats as [|[dat raw] rest IH]; intros s.
  - exists [], s, []. repeat split. constructor.
  - cbn [construct_all].
    assert (Hone : exists s1 e1,
               construct bits dat raw s = Returned tt s1 e1 /\
               reads_scheduled e1 = 1%nat /\
               List.length (filter (fun e => match e with
                                             | ev_async_write _ => true
                                             | _ => false
                                             end) e1) = 1%nat /\
               teardown_requests e1 = 0%nat /\
               kernel_calls e1 = 0%nat /\
               the_kernel s1 = the_kernel s /\
               clock s1 = clock s /\
               chan_id_counter s1 = handle_incr bits (chan_id_counter s) /\
               inbound_payload_ (this s1) = [] /\
               timeout_ (this s1) = {| expires_at := (clock s + disconnect_timeout)%Z;
                                       waiting := true |}).
    { do 2 eexists. split; [reflexivity|]. repeat split. }
    destruct Hone as (s1 & e1 & Hrun & Hr1 & Hw1 & Ht1 & Hk1 & Hker1 & Hclock1
                      & Hctr1 & Hpay1 & Htime1).
    destruct (IH s1) as (chans & s2 & e2 & Hrest & Hr2 & Hw2 & Ht2 & Hk2 & Hker2
                         & Hclock2 & Hctr2 & Hall).
    rewrite Hrun, Hrest.
    do 3 eexists. split; [reflexivity|].
    unfold reads_scheduled, teardown_requests, kernel_calls, count in *.
    rewrite !filter_app, !length_app.
    rewrite Hr1, Hr2, Hw1, Hw2, Ht1, Ht2, Hk1, Hk2.
    repeat split; try reflexivity; try congruence.
    + rewrite Hctr2, Hctr1. symmetry. apply nth_channel_id_succ.
    + constructor; [now split|].
      rewrite Hclock1 in Hall. exact Hall.
Qed.

(** ** A channel from construction on *)

(** X9. In every run of a channel from its construction, whatever the
    order of read, timer and write completions, sends and clock ticks the
    I/O service can produce, no [BITCOIN_ASSERT] fails; at any point at most
    one read is outstanding; while a payload read is outstanding the payload
    vector has exactly the declared length; and the deadline is never more
    than a full timeout ahead of the clock. *)
Theorem session_keeps_assertions bits (dat : init_data) (raw : channel_pimpl) s
    (acts : list action) :
  match session bits dat raw s acts with
  | Ran effects c =>
      (List.length (outstanding c) <= 1)%nat /\
      (forall h, In (cb_handle_read_payload h) (outstanding c) ->
         N.of_nat (List.length (inbound_payload_ (this (chan c)))) = payload_length h) /\
      (expires_at (timeout_ (this (chan c))) <= clock (chan c) + disconnect_timeout)%Z
  | Asserted => False
  | Refused => True
  end.
Proof.
  unfold session.
  destruct (construct_consistent bits dat raw s) as (e0 & c0 & Hboot & Hc0 & _ & _).
  rewrite Hboot.
  pose proof (run_consistent acts Hc0) as Hrun.
  destruct (run acts c0) as [e c| |]; [|exact Hrun|exact I].
  destruct Hrun as [(_ & _ & _ & Htime & Hout) _].
  destruct (outstanding c) as [|cb [|cb' out]]; [| |contradiction].
  - repeat split; [cbn; lia|intros h []|exact Htime].
  - repeat split; [cbn; lia| |exact Htime].
    intros h [->|[]]. exact (proj1 Hout).
Qed.

(** X10. In every such run, each message the kernel is handed comes under
    the identity the channel was given at construction, for a header the
    dialect validated, with a payload that passed the dialect's checksum
    verification, and is the body the dialect decoded from that payload
    without raising its failure flag. *)
Theorem session_deliveries_are_legitimate bits (dat : init_data)
    (raw : channel_pimpl) s (acts : list action) :
  match session bits dat raw s acts with
  | Ran effects c =>
      forall i (m : message), In (ev_recv_message i m) effects ->
        i = chan_id_counter s /\
        exists h payload_stream,
          validated (translator dat) h /\
          verify_checksum (translator dat) h payload_stream = true /\
          decode (translator dat) h payload_stream = Some (m, false)
  | Asserted => False
  | Refused => True
  end.
Proof.
  unfold session.
  destruct (construct_consistent bits dat raw s) as (e0 & c0 & Hboot & Hc0 & Hleg0 & _).
  rewrite Hboot.
  pose proof (run_consistent acts Hc0) as Hrun.
  destruct (run acts c0) as [e c| |]; [|exact Hrun|exact I].
  destruct Hrun as [_ Hleg].
  intros i m Hin.
  assert (Hall : Forall (legitimate (translator dat) (chan_id_counter s)) (e0 ++ e))
    by (apply Forall_app; now split).
  rewrite Forall_forall in Hall.
  exact (Hall _ Hin).
Qed.

(** X11. In every such run the channel keeps the identity, the dialect and
    the gateway it was built with: [get_id] answers the value the static
    counter had at construction, and every teardown request, whether it
    comes from a read, the timer or a write, names that identity. *)
Theorem session_keeps_identity bits (dat : init_data) (raw : channel_pimpl) s
    (acts : list action) :
  match session bits dat raw s acts with
  | Ran effects c =>
      get_id (chan c) = Returned (chan_id_counter s) (chan c) [] /\
      translator_ (this (chan c)) = translator dat /\
      network_ (this (chan c)) = parent_gateway dat /\
      forall i, In (ev_disconnect i) effects -> i = chan_id_counter s
  | Asserted => False
  | Refused => True
  end.
Proof.
  unfold session.
  destruct (construct_consistent bits dat raw s) as (e0 & c0 & Hboot & Hc0 & Hleg0 & _).
  rewrite Hboot.
  pose proof (run_consistent acts Hc0) as Hrun.
  destruct (run acts c0) as [e c| |]; [|exact Hrun|exact I].
  destruct Hrun as [(Htr & Hnet & Hid & _) Hleg].
  repeat split; try assumption.
  - unfold get_id, gets. now rewrite Hid.
  - intros i Hin.
    assert (Hall : Forall (legitimate (translator dat) (chan_id_counter s)) (e0 ++ e))
      by (apply Forall_app; now split).
    rewrite Forall_forall in Hall.
    exact (Hall _ Hin).
Qed.

(** X12. The end of the read loop is final. When the completion of the
    outstanding read does not lead to a new read (the handler requested
    teardown, or the read was cancelled), no read is outstanding any more,
    and in whatever follows (timer and write completions, sends, time) the
    channel issues no read and hands nothing to the kernel. *)
Theorem read_loop_ends_for_good (tr : Dialect) (net : Network) id (c : Config)
    ec data (acts : list action) :
  consistent tr net id c ->
  admissible (act_read ec data) c = true ->
  exists effects c',
    perform (act_read ec data) c = Ran effects c' /\
    (teardown_requests effects + List.length (outstanding c'))%nat
      = (if error_code_eqb ec operation_aborted then 0 else 1)%nat /\
    (teardown_requests effects = 1%nat \/ ec = operation_aborted ->
       outstanding c' = [] /\
       match run acts c' with
       | Ran later c'' =>
           outstanding c'' = [] /\
           kernel_calls later = 0%nat /\
           reads_scheduled later = 0%nat /\
           the_kernel (chan c'') = the_kernel (chan c')
       | Asserted => False
       | Refused => True
       end).
Proof.
  intros Hc Hadm.
  destruct (@read_step tr net id c ec data Hc Hadm)
    as (effects & c' & Hrun & _ & _ & Hone & _).
  exists effects, c'. split; [exact Hrun|]. split; [exact Hone|].
  intros Hend.
  assert (Hout : outstanding c' = []).
  { destruct Hend as [Ht| ->].
    - destruct (error_code_eqb ec operation_aborted); [lia|].
      apply length_zero_iff_nil. lia.
    - cbn [error_code_eqb] in Hone. apply length_zero_iff_nil. lia. }
  split; [exact Hout|].
  exact (run_quiet acts c' Hout).
Qed.

(** X14. In every run of a channel from its construction, the kernel's
    state at the end is what the kernel itself made of the deliveries, one
    after the other in the order they were made: the channel keeps every
    answer's state, that of a rejected message included, and changes the
    kernel in no other way. *)
Theorem session_kernel_state bits (dat : init_data) (raw : channel_pimpl) s
    (acts : list action) :
  match session bits dat raw s acts with
  | Ran effects c =>
      the_kernel (chan c) = replay (parent_gateway dat) effects (the_kernel s)
  | Asserted => False
  | Refused => True
  end.
Proof.
  unfold session.
  destruct (construct_consistent bits dat raw s) as (e0 & c0 & Hboot & Hc0 & _ & _).
  rewrite Hboot.
  assert (H0 : the_kernel (chan c0) = replay (parent_gateway dat) e0 (the_kernel s)).
  { cbn in Hboot. injection Hboot as <- <-. reflexivity. }
  pose proof (run_accounts acts Hc0) as Hrun.
  destruct (run acts c0) as [e c| |]; [|exact Hrun|exact I].
  destruct Hrun as [Hk _].
  now rewrite replay_app, <- H0.
Qed.

(** X15. In every such run the timer is armed exactly as often as a read is
    issued: the constructor and each handler that issues a read rearm it
    once, and nothing else does (no send, no write or timer completion, no
    failed stage). *)
Theorem session_arms_timer_per_read bits (dat : init_data) (raw : channel_pimpl) s
    (acts : list action) :
  match session bits dat raw s acts with
  | Ran effects c => count is_timer_wait effects = reads_scheduled effects
  | Asserted => False
  | Refused => True
  end.
Proof.
  unfold session.
  destruct (construct_consistent bits dat raw s) as (e0 & c0 & Hboot & Hc0 & _ & _).
  rewrite Hboot.
  assert (H0 : count is_timer_wait e0 = reads_scheduled e0).
  { cbn in Hboot. injection Hboot as <- _. reflexivity. }
  pose proof (run_accounts acts Hc0) as Hrun.
  destruct (run acts c0) as [e c| |]; [|exact Hrun|exact I].
  destruct Hrun as [_ Hw].
  unfold reads_scheduled, count in *.
  rewrite !filter_app, !length_app. lia.
Qed.

End ChannelFacts.

(** * The block verification program *)

Section VerifyBlockFacts.

Import VerifyBlock.

Context {block : Type}.

Local Abbreviation Effect := (@effect block).
Local Abbreviation Process := (@process block).













End VerifyBlockFacts.

(** * The facts at concrete inputs *)

(** C1 at work: an expiry, an I/O failure and a cancellation. *)
Example handle_timeout_samples :
  handle_timeout no_error (idle_state (lenient mystery_header)) =
    Returned tt (idle_state (lenient mystery_header))
      [ev_log info "Forcing disconnect due to timeout."; ev_disconnect 7%Z] /\
  handle_timeout (io_failure 104%positive) (idle_state (lenient mystery_header)) =
    Returned tt (idle_state (lenient mystery_header)) [ev_disconnect 7%Z] /\
  handle_timeout operation_aborted (idle_state (lenient mystery_header)) =
    Returned tt (idle_state (lenient mystery_header)) [].
Proof. repeat split. Qed.

(** C2: a valid header arrives; the payload read is issued at position 1 of
    the effects and the first timer operation at position 2. The timer is
    rearmed after the next read is issued, not before. *)
Lemma header_handler_reads_before_rearming :
  exists s' effects,
    handle_read_header no_error 20 (idle_state (lenient mystery_header)) =
      Returned tt s' effects /\
    effects = [ev_log info "r: mystery (50 bytes)";
               ev_async_read 50 (cb_handle_read_payload mystery_header);
               ev_timer_cancel;
               ev_timer_expires_from_now 5400%Z;
               ev_timer_async_wait] /\
    index_of is_async_read effects = Some 1%nat /\
    index_of is_timer_event effects = Some 2%nat.
Proof.
  do 2 eexists. split; [reflexivity|]. repeat split.
Qed.

Lemma stage_completion_reads_then_rearms_witness :
  20 = requested cb_handle_read_header /\
  buffer_ready cb_handle_read_header (idle_state (lenient mystery_header)) = true /\
  exists s' effects,
    run_callback cb_handle_read_header no_error 20
      (idle_state (lenient mystery_header)) = Returned tt s' effects /\
    read_then_rearm effects /\
    timeout_ (this s') = {| expires_at := 6400; waiting := true |} /\
    teardown_requests effects = 0%nat.
Proof.
  split; [reflexivity|]. split; [reflexivity|].
  exact (stage_completion_reads_then_rearms cb_handle_read_header
           (idle_state (lenient mystery_header)) eq_refl eq_refl).
Defined.

Lemma invalid_header_tears_down_witness :
  verify_header (translator_ (this (idle_state (refusing mystery_header))))
    (header_from_network (translator_ (this (idle_state (refusing mystery_header))))
       (chunk_of_array (inbound_header_ (this (idle_state (refusing mystery_header))))))
    = false /\
  exists effects,
    handle_read_header no_error 20 (idle_state (refusing mystery_header)) =
      Returned tt (idle_state (refusing mystery_header)) effects /\
    teardown_requests effects = 1%nat /\
    In (ev_disconnect 7%Z) effects /\
    reads_scheduled effects = 0%nat /\
    count is_timer_event effects = 0%nat.
Proof.
  split; [reflexivity|].
  exact (invalid_header_tears_down (idle_state (refusing mystery_header))
           eq_refl eq_refl).
Defined.

Lemma bad_checksum_tears_down_witness :
  N.of_nat (List.length
              (inbound_payload_ (this (payload_state accepting_net (strict block_header)))))
    = payload_length block_header /\
  verify_checksum (strict block_header) block_header zeros50 = false /\
  exists effects,
    handle_read_payload block_header no_error 50
      (payload_state accepting_net (strict block_header)) =
      Returned tt (payload_state accepting_net (strict block_header)) effects /\
    teardown_requests effects = 1%nat /\
    In (ev_disconnect 7%Z) effects /\
    kernel_calls effects = 0%nat /\
    reads_scheduled effects = 0%nat.
Proof.
  split; [reflexivity|]. split; [reflexivity|].
  exact (bad_checksum_tears_down block_header
           (payload_state accepting_net (strict block_header))
           eq_refl eq_refl eq_refl).
Defined.

(** A block the kernel rejects: one delivery, then one teardown request. *)
Lemma failed_dispatch_tears_down_witness :
  verify_checksum (lenient block_header) block_header zeros50 = true /\
  decode (lenient block_header) block_header zeros50 = Some (msg_block tt, false) /\
  handle_read_payload block_header no_error 50
    (payload_state rejecting_net (lenient block_header)) =
    Returned tt (with_kernel 1%nat (payload_state rejecting_net (lenient block_header)))
      [ev_recv_message 7%Z (msg_block tt); ev_disconnect 7%Z].
Proof.
  split; [reflexivity|]. split; [reflexivity|].
  exact (proj1 (proj2 (failed_dispatch_tears_down block_header
           (payload_state rejecting_net (lenient block_header))
           (m := msg_block tt) (ret_errc := false)
           eq_refl eq_refl eq_refl eq_refl)) eq_refl eq_refl).
Defined.

(** A block that fails to decode: teardown, the kernel is not called. *)
Example garbled_block_is_not_delivered :
  handle_read_payload block_header no_error 50
    (payload_state accepting_net (garbling block_header)) =
    Returned tt (payload_state accepting_net (garbling block_header))
      [ev_disconnect 7%Z].
Proof. reflexivity. Qed.

(** A payload that fails the checksum verification never reaches the
    dispatch, whatever its command: here an unknown one. The header is valid
    and announces a checksum; the channel reads the checksum, then the 50
    payload bytes, and then requests teardown. *)
Lemma unknown_command_bad_checksum_tears_down :
  mem_string (command mystery_header) enumerated_commands = false /\
  verify_header (strict mystery_header) mystery_header = true /\
  exists s1 s2 s3,
    handle_read_header no_error 20 (idle_state (strict mystery_header)) =
      Returned tt s1
        ([ev_log info "r: mystery (50 bytes)";
          ev_async_read 4 (cb_handle_read_checksum mystery_header)] ++ rearm) /\
    run_callback (cb_handle_read_checksum mystery_header) no_error 4 s1 =
      Returned tt s2
        (ev_async_read 50 (cb_handle_read_payload mystery_header) :: rearm) /\
    run_callback (cb_handle_read_payload mystery_header) no_error 50 s2 =
      Returned tt s3 [ev_log warning "Bad checksum!"; ev_disconnect 7%Z] /\
    teardown_requests [ev_log warning "Bad checksum!"; ev_disconnect 7%Z
                       : @event unit unit unit] = 1%nat /\
    reads_scheduled [ev_log warning "Bad checksum!"; ev_disconnect 7%Z
                     : @event unit unit unit] = 0%nat.
Proof.
  split; [reflexivity|]. split; [reflexivity|].
  do 3 eexists.
  split; [reflexivity|]. split; [reflexivity|]. split; [reflexivity|].
  split; reflexivity.
Qed.

Lemma unknown_command_is_drained_witness :
  mem_string (command mystery_header) enumerated_commands = false /\
  N.of_nat (List.length
       (inbound_payload_ (this (payload_state accepting_net (checksummed mystery_header)))))
    = payload_length mystery_header /\
  exists s' effects,
    handle_read_payload mystery_header no_error 50
      (payload_state accepting_net (checksummed mystery_header)) =
      Returned tt s' effects /\
    kernel_calls effects = 0%nat /\
    the_kernel s' = O /\
    s' = rearmed (payload_state accepting_net (checksummed mystery_header)) /\
    effects = ev_async_read 20 cb_handle_read_header :: rearm /\
    teardown_requests effects = 0%nat.
Proof.
  split; [reflexivity|]. split; [reflexivity|].
  exact (proj2 (unknown_command_is_drained mystery_header
           (payload_state accepting_net (checksummed mystery_header))
           eq_refl eq_refl eq_refl)).
Defined.

Lemma payload_buffer_matches_header_witness :
  verify_header (lenient mystery_header) mystery_header = true /\
  exists s',
    handle_read_header no_error 20 (idle_state (lenient mystery_header)) =
      Returned tt s'
        ([ev_log info "r: mystery (50 bytes)";
          ev_async_read 50 (cb_handle_read_payload mystery_header)] ++ rearm) /\
    N.of_nat (List.length (inbound_payload_ (this s'))) = 50.
Proof.
  split; [reflexivity|].
  exact (proj1 (payload_buffer_matches_header (idle_state (lenient mystery_header))
                  eq_refl) eq_refl).
Defined.

(** Three channels built at the start of a process get 0, 1 and 2. *)
Lemma channel_ids_distinct_until_wrap_witness :
  (0 <= chan_id_counter (process_start O 1000 blank_storage) < 2 ^ Z.of_N 32)%Z /\
  exists chans s' effects,
    construct_all 32 three_inits (process_start O 1000 blank_storage) =
      Returned chans s' effects /\
    List.length chans = 3%nat /\
    NoDup (map channel_id_ chans).
Proof.
  assert (H : (0 <= chan_id_counter (process_start O 1000 blank_storage)
               < 2 ^ Z.of_N 32)%Z) by (cbn; lia).
  split; [exact H|].
  destruct (proj1 (channel_ids_distinct_until_wrap 32 three_inits
                     (process_start O 1000 blank_storage) H))
    as (chans & s' & effects & Hrun & Hlen & _ & _ & Hnodup).
  exists chans, s', effects.
  split; [exact Hrun|]. split; [exact Hlen|].
  apply Hnodup. cbn. lia.
Defined.

Example first_three_channel_ids :
  exists chans s' effects,
    construct_all 32 three_inits (process_start O 1000 blank_storage) =
      Returned chans s' effects /\
    map channel_id_ chans = [0; 1; 2]%Z.
Proof. do 3 eexists. split; reflexivity. Qed.

(** C8. Identities are not unique for the lifetime of the process: the
    static counter wraps. With a 32-bit handle, building 2^32 + 1 channels
    one after the other from the start of a process succeeds, and the last
    channel gets identity 0, the identity the first channel got: the
    identities handed out are not free of duplicates. *)
Lemma channel_id_reused_after_wrap :
  exists chans s' effects,
    construct_all 32
      (repeat (sample_init accepting_net (lenient mystery_header) 3, blank_storage)
         (S (Z.to_nat (2 ^ Z.of_N 32))))
      (process_start O 1000 blank_storage) = Returned chans s' effects /\
    option_map channel_id_ (nth_error chans 0) = Some 0%Z /\
    option_map channel_id_ (nth_error chans (Z.to_nat (2 ^ Z.of_N 32))) = Some 0%Z /\
    ~ NoDup (map channel_id_ chans).
Proof.
  exact (ids_wrap_around 32
           (sample_init accepting_net (lenient mystery_header) 3)
           blank_storage O 1000).
Qed.

(** C9: two channels given different gateways, dialects and sockets, at
    different times, compose handshakes with the same protocol version,
    nonce, peer address and ports. *)
Lemma handshake_ignores_configuration :
  get_ip_address (parent_gateway (sample_init accepting_net (lenient mystery_header) 3))
    <> get_ip_address (parent_gateway (sample_init rejecting_net (strict block_header) 4)) /\
  exists v1 s1 v2 s2,
    create_version_message
      (with_this
         (fun _ => member_init (sample_init accepting_net (lenient mystery_header) 3)
                     blank_storage)
         (process_start O 1000 blank_storage)) = Returned v1 s1 [] /\
    create_version_message
      (with_this
         (fun _ => member_init (sample_init rejecting_net (strict block_header) 4)
                     blank_storage)
         (process_start O 2000 blank_storage)) = Returned v2 s2 [] /\
    v_version v1 = 31900%Z /\ v_version v2 = 31900%Z /\
    nonce v1 = 0xdeadbeef%Z /\ nonce v2 = 0xdeadbeef%Z /\
    addr_you v1 = addr_you v2 /\
    port (addr_you v1) = 8333%Z /\
    port (addr_me v1) = port (addr_me v2) /\
    ip_addr (addr_me v1) <> ip_addr (addr_me v2) /\
    timestamp v1 <> timestamp v2.
Proof.
  split; [discriminate|].
  do 4 eexists.
  split; [reflexivity|]. split; [reflexivity|].
  repeat split; discriminate.
Qed.

(** Likewise a [getaddr] whose payload fails the checksum verification:
    the channel requests teardown before it looks at the command. *)
Lemma getaddr_bad_checksum_tears_down :
  In (command getaddr_header) ["getaddr"; "getdata"; "getblocks"] /\
  verify_header (strict getaddr_header) getaddr_header = true /\
  handle_read_payload getaddr_header no_error 0 (idle_state (strict getaddr_header)) =
    Returned tt (idle_state (strict getaddr_header))
      [ev_log warning "Bad checksum!"; ev_disconnect 7%Z] /\
  reads_scheduled [ev_log warning "Bad checksum!"; ev_disconnect 7%Z
                   : @event unit unit unit] = 0%nat.
Proof.
  split; [now left|]. repeat split.
Qed.


(** * Further facts at concrete inputs *)

Lemma read_error_completion_witness :
  is_set (io_failure 104%positive) = true /\
  run_callback cb_handle_read_header (io_failure 104%positive) 7
    (idle_state (lenient mystery_header)) =
    Returned tt (idle_state (lenient mystery_header)) [ev_disconnect 7%Z].
Proof.
  split; [reflexivity|].
  exact (read_error_completion cb_handle_read_header (io_failure 104%positive) 7
           (idle_state (lenient mystery_header)) eq_refl).
Defined.

Lemma completion_continues_or_tears_down_witness :
  20 = requested cb_handle_read_header /\
  buffer_ready cb_handle_read_header (idle_state (lenient mystery_header)) = true /\
  exists s' effects,
    run_callback cb_handle_read_header no_error 20
      (idle_state (lenient mystery_header)) = Returned tt s' effects /\
    (reads_scheduled effects + teardown_requests effects)%nat = 1%nat /\
    (kernel_calls effects <= 1)%nat /\
    (kernel_calls effects = 1%nat ->
     exists h, cb_handle_read_header = cb_handle_read_payload h).
Proof.
  split; [reflexivity|]. split; [reflexivity|].
  exact (completion_continues_or_tears_down cb_handle_read_header no_error
           (idle_state (lenient mystery_header))
           (fun _ => conj eq_refl eq_refl)).
Defined.

(** A verack with no payload, no checksum asked for: the header leads
    straight to the delivery of a verack to the kernel. *)
Lemma accepted_message_is_delivered_once_witness :
  verify_checksum (lenient verack_header) verack_header [] = true /\
  decode (lenient verack_header) verack_header [] = Some (msg_verack, false) /\
  handle_read_payload verack_header no_error 0 (idle_state (lenient verack_header)) =
    Returned tt
      (rearmed (with_kernel 1%nat (idle_state (lenient verack_header))))
      ([ev_recv_message 7%Z msg_verack;
        ev_async_read 20 cb_handle_read_header] ++ rearm).
Proof.
  split; [reflexivity|]. split; [reflexivity|].
  exact (accepted_message_is_delivered_once verack_header
           (idle_state (lenient verack_header)) (m := msg_verack)
           eq_refl eq_refl eq_refl eq_refl eq_refl).
Defined.

Lemma header_is_parsed_from_received_bytes_witness :
  List.length verack_bytes = header_chunk_size /\
  exists s' effects,
    complete_read cb_handle_read_header no_error verack_bytes
      (idle_state wire_dialect) = Returned tt s' effects /\
    scheduled effects = [cb_handle_read_payload verack_header] /\
    teardown_requests effects = 0%nat.
Proof.
  split; [reflexivity|].
  exact (header_is_parsed_from_received_bytes verack_bytes
           (idle_state wire_dialect) eq_refl).
Defined.

Lemma checksum_is_parsed_from_received_bytes_witness :
  List.length [x06; x00; x00; x00] = header_checksum_size /\
  exists s',
    complete_read (cb_handle_read_checksum (inv_header 0)) no_error
      [x06; x00; x00; x00] (idle_state wire_dialect) =
      Returned tt s'
        (ev_async_read 3 (cb_handle_read_payload (inv_header 6)) :: rearm) /\
    N.of_nat (List.length (inbound_payload_ (this s'))) = 3.
Proof.
  split; [reflexivity|].
  exact (checksum_is_parsed_from_received_bytes (inv_header 0)
           [x06; x00; x00; x00] (idle_state wire_dialect) eq_refl).
Defined.

Lemma payload_is_judged_on_received_bytes_witness :
  N.of_nat (List.length [x01; x02; x03]) = payload_length (inv_header 6) /\
  exists s' effects,
    complete_read (cb_handle_read_payload (inv_header 6)) no_error [x01; x02; x03]
      (sample_state accepting_net wire_dialect [xff; xff; xff]) =
      Returned tt s' effects /\
    inbound_payload_ (this s') = [x01; x02; x03] /\
    (kernel_calls effects = 1%nat <->
       verify_checksum wire_dialect (inv_header 6) [x01; x02; x03] = true /\
       exists m, decode wire_dialect (inv_header 6) [x01; x02; x03] = Some (m, false)) /\
    (forall i m, In (ev_recv_message i m) effects ->
       i = 7%Z /\
       decode wire_dialect (inv_header 6) [x01; x02; x03] = Some (m, false)).
Proof.
  split; [reflexivity|].
  exact (payload_is_judged_on_received_bytes (inv_header 6) [x01; x02; x03]
           (sample_state accepting_net wire_dialect [xff; xff; xff])
           eq_refl eq_refl).
Defined.

Lemma waiting_config_consistent :
  consistent (refusing mystery_header) accepting_net 7%Z waiting_config.
Proof.
  unfold consistent. cbn. repeat split. lia.
Defined.

(** A refused header ends the read loop; the timer firing and a send that
    follow lead to no read and no delivery. *)
Lemma read_loop_ends_for_good_witness :
  admissible (act_read no_error (repeat x00 20)) waiting_config = true /\
  exists effects c',
    perform (act_read no_error (repeat x00 20)) waiting_config = Ran effects c' /\
    teardown_requests effects = 1%nat /\
    outstanding c' = [] /\
    match run [act_timer no_error; act_send pkt_verack; act_tick 5] c' with
    | Ran later c'' =>
        outstanding c'' = [] /\
        kernel_calls later = 0%nat /\
        reads_scheduled later = 0%nat /\
        the_kernel (chan c'') = the_kernel (chan c')
    | Asserted => False
    | Refused => True
    end.
Proof.
  split; [reflexivity|].
  destruct (read_loop_ends_for_good no_error (repeat x00 20)
              [act_timer no_error; act_send pkt_verack; act_tick 5]
              waiting_config_consistent eq_refl)
    as (effects & c' & Hrun & Hone & Hend).
  exists effects, c'. split; [exact Hrun|].
  assert (Ht : teardown_requests effects = 1%nat).
  { cbn in Hrun. injection Hrun as <- _. reflexivity. }
  split; [exact Ht|].
  exact (Hend (or_introl Ht)).
Defined.

(** Scenario of a whole exchange, from the bytes on the wire: a channel is
    built, the 20 bytes of a verack header arrive, then its empty payload.
    The kernel gets the verack once, under identity 0, and the channel
    waits for the next header. *)
Example verack_session :
  match session 32 wire_init blank_storage fresh_process
          [act_read no_error verack_bytes; act_read no_error []] with
  | Ran effects c =>
      filter is_recv_message effects = [ev_recv_message 0%Z msg_verack] /\
      teardown_requests effects = 0%nat /\
      outstanding c = [cb_handle_read_header] /\
      the_kernel (chan c) = 1%nat
  | _ => False
  end.
Proof. vm_compute. repeat split. Qed.

(** An inv whose checksum does not match its payload: header, checksum,
    payload are read in turn, then the channel requests teardown with no
    delivery, and no read is left outstanding. *)
Example bad_inv_session :
  match session 32 wire_init blank_storage fresh_process
          [act_read no_error inv_bytes;
           act_read no_error [x07; x00; x00; x00];
           act_read no_error [x01; x02; x03]] with
  | Ran effects c =>
      scheduled effects =
        [cb_handle_read_header;
         cb_handle_read_checksum (inv_header 0);
         cb_handle_read_payload (inv_header 7)] /\
      kernel_calls effects = 0%nat /\
      filter is_disconnect effects = [ev_disconnect 0%Z] /\
      outstanding c = []
  | _ => False
  end.
Proof. vm_compute. repeat split. Qed.

(** A read cannot complete with fewer bytes than asked for and no error. *)
Example short_read_is_refused :
  session 32 wire_init blank_storage fresh_process
    [act_read no_error [x00; x01]] = Refused.
Proof. reflexivity. Qed.

(** The block verification program: a block is fetched, found good, and the
    process exits with status 0; a fetch that fails is reported on the
    standard error and nothing is verified. *)
Example good_block_run :
  VerifyBlock.program
    [VerifyBlock.fetched {| VerifyBlock.value := 0; VerifyBlock.message := "" |} tt;
     VerifyBlock.verified {| VerifyBlock.value := 0; VerifyBlock.message := "" |} true;
     VerifyBlock.key_pressed] =
  ([VerifyBlock.fetch_block_by_depth 2; VerifyBlock.cin_get;
    VerifyBlock.verify_start tt;
    VerifyBlock.cout (String.append "block is good" VerifyBlock.newline)],
   {| VerifyBlock.fetch_pending := false; VerifyBlock.verifying := None;
      VerifyBlock.status := Some 0%Z |}).
Proof. reflexivity. Qed.

Example failed_fetch_run :
  VerifyBlock.program
    [VerifyBlock.fetched {| VerifyBlock.value := 2; VerifyBlock.message := "not found" |} tt;
     VerifyBlock.verified {| VerifyBlock.value := 0; VerifyBlock.message := "" |} true] =
  ([VerifyBlock.fetch_block_by_depth 2; VerifyBlock.cin_get;
    VerifyBlock.cerr (String.append "not found" VerifyBlock.newline)],
   {| VerifyBlock.fetch_pending := false; VerifyBlock.verifying := None;
      VerifyBlock.status := None |}).
Proof. reflexivity. Qed.
